(** * HydraTrack: the progression engine of [app.js]

    A shallow embedding of the game state, the water-logging rules
    (XP, levels, streaks, achievements), the day rollover, the settings
    form and the cloud synchronisation of [src/app.js], followed by the
    properties proved about them.

    Conventions of the embedding:
    - JavaScript numbers that hold counters and amounts are [Z];
    - an instant is the reading of the local clock in milliseconds, so
      that [toDateString] is the day number and [getHours] the hour of
      the day; [Date.toDateString()] is an injective rendering of the
      calendar day and is modelled by the day number itself;
    - [state.achievements] (a JS object used as a map) is a [gmap]
      from achievement ids to their unlock record;
    - every [new Date()] of one call reads the same instant, the
      argument [now] of the operation;
    - rendering, sounds, toasts and timers do not touch [state] and are
      left out, but for the render of the sign-in code, which can throw
      inside the [try] and skip the statements after it;
      [saveState()] only copies the state to storage, and storage is
      modelled where the sign-in code depends on it. *)

From Stdlib Require Import ZArith Lia.
From stdpp Require Import gmap strings list.

Open Scope Z_scope.

(** ** Game state (the object literal of [HydraTrack.constructor]) *)

Record Settings := mkSettings {
  soundEnabled : bool;
  notificationsEnabled : bool;
  reminderInterval : Z;
  startTime : string;
  endTime : string
}.

Record Stats := mkStats {
  totalDays : Z;
  totalWater : Z;
  perfectDays : Z;
  bestStreak : Z;
  glassesCount : Z
}.

(** One element of [state.history], as pushed by [addWater]. *)
Record HistoryEntry := mkEntry {
  amount : Z;
  timestamp : Z;
  date : Z
}.

(** The value stored under an achievement id. *)
Record Unlock := mkUnlock { unlockedAt : Z }.

Record State := mkState {
  currentIntake : Z;
  dailyGoal : Z;
  xp : Z;
  totalXp : Z;
  level : Z;
  streak : Z;
  lastDrinkDate : option Z;
  history : list HistoryEntry;
  achievements : gmap string Unlock;
  settings : Settings;
  stats : Stats
}.

Definition initialState : State :=
  {| currentIntake := 0;
     dailyGoal := 2000;
     xp := 0;
     totalXp := 0;
     level := 1;
     streak := 0;
     lastDrinkDate := None;
     history := [];
     achievements := ∅;
     settings := {| soundEnabled := true;
                    notificationsEnabled := false;
                    reminderInterval := 60;
                    startTime := "08:00";
                    endTime := "22:00" |};
     stats := {| totalDays := 0;
                 totalWater := 0;
                 perfectDays := 0;
                 bestStreak := 0;
                 glassesCount := 0 |} |}.

(** Field updates ([this.state.f = v]). *)

Definition set_currentIntake (v : Z) (s : State) : State :=
  mkState v (dailyGoal s) (xp s) (totalXp s) (level s) (streak s)
          (lastDrinkDate s) (history s) (achievements s) (settings s) (stats s).

Definition set_dailyGoal (v : Z) (s : State) : State :=
  mkState (currentIntake s) v (xp s) (totalXp s) (level s) (streak s)
          (lastDrinkDate s) (history s) (achievements s) (settings s) (stats s).

Definition set_xp (v : Z) (s : State) : State :=
  mkState (currentIntake s) (dailyGoal s) v (totalXp s) (level s) (streak s)
          (lastDrinkDate s) (history s) (achievements s) (settings s) (stats s).

Definition set_totalXp (v : Z) (s : State) : State :=
  mkState (currentIntake s) (dailyGoal s) (xp s) v (level s) (streak s)
          (lastDrinkDate s) (history s) (achievements s) (settings s) (stats s).

Definition set_level (v : Z) (s : State) : State :=
  mkState (currentIntake s) (dailyGoal s) (xp s) (totalXp s) v (streak s)
          (lastDrinkDate s) (history s) (achievements s) (settings s) (stats s).

Definition set_streak (v : Z) (s : State) : State :=
  mkState (currentIntake s) (dailyGoal s) (xp s) (totalXp s) (level s) v
          (lastDrinkDate s) (history s) (achievements s) (settings s) (stats s).

Definition set_lastDrinkDate (v : option Z) (s : State) : State :=
  mkState (currentIntake s) (dailyGoal s) (xp s) (totalXp s) (level s) (streak s)
          v (history s) (achievements s) (settings s) (stats s).

Definition set_history (v : list HistoryEntry) (s : State) : State :=
  mkState (currentIntake s) (dailyGoal s) (xp s) (totalXp s) (level s) (streak s)
          (lastDrinkDate s) v (achievements s) (settings s) (stats s).

Definition set_achievements (v : gmap string Unlock) (s : State) : State :=
  mkState (currentIntake s) (dailyGoal s) (xp s) (totalXp s) (level s) (streak s)
          (lastDrinkDate s) (history s) v (settings s) (stats s).

Definition set_settings (v : Settings) (s : State) : State :=
  mkState (currentIntake s) (dailyGoal s) (xp s) (totalXp s) (level s) (streak s)
          (lastDrinkDate s) (history s) (achievements s) v (stats s).

Definition set_stats (v : Stats) (s : State) : State :=
  mkState (currentIntake s) (dailyGoal s) (xp s) (totalXp s) (level s) (streak s)
          (lastDrinkDate s) (history s) (achievements s) (settings s) v.

(** ** The clock *)

Definition msPerHour : Z := 3600000.
Definition msPerDay : Z := 86400000.

(** [new Date(t).toDateString()]: the calendar day of an instant. *)
Definition toDateString (t : Z) : Z := t / msPerDay.

(** [new Date(t).getHours()]. *)
Definition getHours (t : Z) : Z := (t mod msPerDay) / msPerHour.

(** ** Level table ([this.levels]) *)

Record Level := mkLevel {
  lv_level : Z;
  title : string;
  xpRequired : Z
}.

Definition levels : list Level :=
  [ mkLevel 1 "Hydration Rookie" 0;
    mkLevel 2 "Water Apprentice" 100;
    mkLevel 3 "Hydration Enthusiast" 250;
    mkLevel 4 "Water Warrior" 500;
    mkLevel 5 "Hydration Hero" 800;
    mkLevel 6 "Aqua Champion" 1200;
    mkLevel 7 "Water Master" 1700;
    mkLevel 8 "Hydration Legend" 2300;
    mkLevel 9 "Aqua Sage" 3000;
    mkLevel 10 "Hydration Deity" 4000 ].

(** ** Achievement catalogue ([this.achievementsDef])

    [desc] and [icon] are only rendered and are left out; the fields
    [id] and [xp] carry a prefix because [xp] is also a field of the
    state. *)

Record Achievement := mkAchievement {
  ach_id : string;
  ach_name : string;
  ach_xp : Z;
  condition : State -> bool
}.

Definition achievementsDef : list Achievement :=
  [ mkAchievement "first_drop" "First Drop" 25
      (fun s => 1 <=? glassesCount (stats s));
    mkAchievement "getting_started" "Getting Started" 50
      (fun s => 1 <=? perfectDays (stats s));
    mkAchievement "hydration_habit" "Hydration Habit" 75
      (fun s => 3 <=? streak s);
    mkAchievement "week_warrior" "Week Warrior" 150
      (fun s => 7 <=? streak s);
    mkAchievement "hydration_hero" "Hydration Hero" 300
      (fun s => 14 <=? streak s);
    mkAchievement "monthly_master" "Monthly Master" 500
      (fun s => 30 <=? streak s);
    mkAchievement "liter_club" "Liter Club" 50
      (fun s => existsb (fun h => 1000 <=? amount h) (history s));
    mkAchievement "early_bird" "Early Bird" 40
      (fun s => existsb (fun h => getHours (timestamp h) <? 8) (history s));
    mkAchievement "night_owl" "Night Owl" 40
      (fun s => existsb (fun h => 22 <=? getHours (timestamp h)) (history s));
    mkAchievement "ocean_drinker" "Ocean Drinker" 100
      (fun s => 10000 <=? totalWater (stats s));
    mkAchievement "river_runner" "River Runner" 200
      (fun s => 50000 <=? totalWater (stats s));
    mkAchievement "waterfall_wonder" "Waterfall Wonder" 400
      (fun s => 100000 <=? totalWater (stats s));
    mkAchievement "level_5" "Rising Star" 100
      (fun s => 5 <=? level s);
    mkAchievement "level_10" "Ultimate Hydrator" 250
      (fun s => 10 <=? level s);
    mkAchievement "perfectionist" "Perfectionist" 200
      (fun s => 10 <=? perfectDays (stats s)) ].

(** ** Day rollover *)

(** [getIntakeForDate(date)]: the amounts of the history entries whose
    timestamp falls on [dateStr], summed from 0. *)
Definition getIntakeForDate (dateStr : Z) (s : State) : Z :=
  foldl (fun sum h => sum + amount h) 0
        (filter (fun h => toDateString (timestamp h) = dateStr) (history s)).

(** [checkNewDay()], run at the instant [now].  [lastDate && ...] is
    false for [null]; the trailing [saveState()] only persists. *)
Definition checkNewDay (now : Z) (s : State) : State :=
  let today := toDateString now in
  match lastDrinkDate s with
  | Some lastDate =>
      if bool_decide (lastDate <> today) then
        let yesterday := today - 1 in
        let s1 :=
          if bool_decide (lastDate = yesterday) then
            let yesterdayIntake := getIntakeForDate yesterday s in
            if yesterdayIntake <? dailyGoal s then set_streak 0 s else s
          else set_streak 0 s in
        set_currentIntake 0 s1
      else s
  | None => s
  end.

(** ** XP, levels and achievements *)

(** The loop of [checkLevelUp]: scan the table from its last entry
    down and take the first entry whose requirement is met; 1 when
    there is none. *)
Definition newLevelFor (txp : Z) : Z :=
  match find (fun l => xpRequired l <=? txp) (rev levels) with
  | Some l => lv_level l
  | None => 1
  end.

(** The body of [addXP] before its call of [checkLevelUp]. *)
Definition gainXP (n : Z) (s : State) : State :=
  set_totalXp (totalXp s + n) (set_xp (xp s + n) s).

(** [checkLevelUp()], with the call of [checkAchievements] it makes
    after raising the level as the continuation [k]. *)
Definition checkLevelUpK (k : State -> option State) (s : State)
  : option State :=
  let currentLevel := level s in
  let newLevel := newLevelFor (totalXp s) in
  if currentLevel <? newLevel then k (set_level newLevel s) else Some s.

(** [addXP(amount)] over the same continuation. *)
Definition addXPK (k : State -> option State) (n : Z) (s : State)
  : option State :=
  checkLevelUpK k (gainXP n s).

Definition isUnlocked (a : Achievement) (s : State) : bool :=
  bool_decide (is_Some (achievements s !! ach_id a)).

Definition unlock (now : Z) (a : Achievement) (s : State) : State :=
  set_achievements (<[ach_id a := mkUnlock now]> (achievements s)) s.

(** One iteration of the first [forEach] of [checkAchievements]; the
    accumulator pairs the state with [newAchievements]. *)
Definition unlockStep (now : Z) (acc : State * list Achievement)
    (a : Achievement) : State * list Achievement :=
  let '(s, newAchievements) := acc in
  if negb (isUnlocked a s) && condition a s
  then (unlock now a s, newAchievements ++ [a])
  else (s, newAchievements).

Definition unlockPass (now : Z) (s : State) : State * list Achievement :=
  foldl (unlockStep now) (s, []) achievementsDef.

(** The second [forEach]: [addXP(a.xp)] for every new achievement, in
    order, each on the state the previous one left. *)
Fixpoint grantAll (k : State -> option State) (l : list Achievement)
    (s : State) : option State :=
  match l with
  | [] => Some s
  | a :: l' =>
      match addXPK k (ach_xp a) s with
      | Some s' => grantAll k l' s'
      | None => None
      end
  end.

(** [checkAchievements()].  It calls [addXP], which calls
    [checkLevelUp], which calls [checkAchievements] again when the
    level rises; [fuel] bounds the depth of that nesting and [None]
    means the bound was hit. *)
Fixpoint checkAchievementsF (fuel : nat) (now : Z) (s : State)
  : option State :=
  match fuel with
  | O => None
  | S fuel' =>
      let '(s1, newAchievements) := unlockPass now s in
      grantAll (checkAchievementsF fuel' now) newAchievements s1
  end.

(** The level rises at most ten times, so eleven nested calls are
    never exceeded ([checkAchievementsF_total] below). *)
Definition maxDepth : nat := 11.

Definition checkAchievements (now : Z) (s : State) : State :=
  default s (checkAchievementsF maxDepth now s).

Definition addXP (now : Z) (n : Z) (s : State) : State :=
  default s (addXPK (checkAchievementsF maxDepth now) n s).

(** ** Water tracking *)

Definition bumpGlasses (n : Z) (st : Stats) : Stats :=
  mkStats (totalDays st) (totalWater st + n) (perfectDays st)
          (bestStreak st) (glassesCount st + 1).

Definition bumpPerfect (st : Stats) : Stats :=
  mkStats (totalDays st + 1) (totalWater st) (perfectDays st + 1)
          (bestStreak st) (glassesCount st).

Definition set_bestStreak (v : Z) (st : Stats) : Stats :=
  mkStats (totalDays st) (totalWater st) (perfectDays st) v (glassesCount st).

(** [handleGoalAchieved()]. *)
Definition handleGoalAchieved (now : Z) (s : State) : State :=
  let s1 := set_streak (streak s + 1) s in
  let s2 := if bestStreak (stats s1) <? streak s1
            then set_stats (set_bestStreak (streak s1) (stats s1)) s1
            else s1 in
  let s3 := set_stats (bumpPerfect (stats s2)) s2 in
  addXP now 100 s3.

(** [addWater(amount)] at the instant [now].  The render between
    [addXP] and the goal test finds a level of at least 1 and does not
    throw ([addXP_renders] below). *)
Definition addWater (now : Z) (amt : Z) (s : State) : State :=
  let previousIntake := currentIntake s in
  let s1 := set_currentIntake (currentIntake s + amt) s in
  let s2 := set_lastDrinkDate (Some (toDateString now)) s1 in
  let s3 := set_history (history s2 ++ [mkEntry amt now (toDateString now)]) s2 in
  let s4 := set_stats (bumpGlasses amt (stats s3)) s3 in
  let xpGained := amt / 25 in
  let s5 := addXP now xpGained s4 in
  let s6 := if (previousIntake <? dailyGoal s5) && (dailyGoal s5 <=? currentIntake s5)
            then handleGoalAchieved now s5 else s5 in
  checkAchievements now s6.

(** ** Settings *)

Definition set_sound_notifications (sound notif : bool) (st : Settings)
  : Settings :=
  mkSettings sound notif (reminderInterval st) (startTime st) (endTime st).

(** [saveSettings()].  [newGoal] is [parseInt(goalInput.value)], with
    [None] for [NaN] (both comparisons are then false).  The render
    comes after the last assignment and the save. *)
Definition saveSettings (newGoal : option Z) (soundToggle notificationToggle : bool)
    (s : State) : State :=
  let s1 := match newGoal with
            | Some g => if (500 <=? g) && (g <=? 5000) then set_dailyGoal g s else s
            | None => s
            end in
  set_settings
    (set_sound_notifications soundToggle notificationToggle (settings s1)) s1.

(** The state changes of [enableReminders()] once the permission is
    granted, and of [disableReminders()]. *)
Definition enableReminders (interval : Z) (start stop : string) (s : State)
  : State :=
  set_settings (mkSettings (soundEnabled (settings s)) true interval start stop) s.

Definition disableReminders (s : State) : State :=
  set_settings
    (set_sound_notifications (soundEnabled (settings s)) false (settings s)) s.

(** ** The operations of the running application

    Every place where the page mutates [this.state] outside start-up
    loading and cloud merging. *)

Inductive Op :=
| OpAddWater (now amt : Z)
| OpCheckNewDay (now : Z)
| OpSaveSettings (newGoal : option Z) (soundToggle notificationToggle : bool)
| OpEnableReminders (interval : Z) (start stop : string)
| OpDisableReminders.

Definition applyOp (s : State) (o : Op) : State :=
  match o with
  | OpAddWater now amt => addWater now amt s
  | OpCheckNewDay now => checkNewDay now s
  | OpSaveSettings g snd ntf => saveSettings g snd ntf s
  | OpEnableReminders i a b => enableReminders i a b s
  | OpDisableReminders => disableReminders s
  end.

Definition runOps (ops : list Op) (s : State) : State := foldl applyOp s ops.

(** What the callers of [addWater] guarantee: the quick-add buttons
    and the reminder pass fixed positive amounts, the custom field is
    checked to be in 1..2000. *)
Definition validOp (o : Op) : Prop :=
  match o with
  | OpAddWater _ amt => 0 < amt
  | _ => True
  end.

(** ** Outcomes *)

(** The outcome of a JavaScript computation: a value or a thrown
    error. *)
Inductive Exc (A : Type) : Type :=
| Ok (a : A)
| Throw (err : string).
Arguments Ok {A} a.
Arguments Throw {A} err.

(** ** The XP bar *)

(** The object that [getXPForCurrentLevel] returns; [percentage] is
    the floating-point quotient of the two fields times 100 and is not
    kept. *)
Record XPBar := mkXPBar { current : Z; required : Z }.

(** [this.levels.find(l => l.level === n)]. *)
Definition findLevel (n : Z) : option Level :=
  find (fun l => bool_decide (lv_level l = n)) levels.

(** [getXPForCurrentLevel()].  Reading [xpRequired] of a missing
    current level throws. *)
Definition getXPForCurrentLevel (s : State) : Exc XPBar :=
  let currentLevelData := findLevel (level s) in
  let nextLevelData := findLevel (level s + 1) in
  match nextLevelData with
  | None => Ok (mkXPBar 0 1)
  | Some next =>
      match currentLevelData with
      | Some cur =>
          let xpIntoCurrentLevel := totalXp s - xpRequired cur in
          let xpRequiredForNext := xpRequired next - xpRequired cur in
          Ok (mkXPBar xpIntoCurrentLevel xpRequiredForNext)
      | None => Throw "TypeError"
      end
  end.

(** ** Cloud synchronisation *)

(** The parsed JSON body of [GET /state].  The page reads it with
    [|| 0] and [?.] and spreads it over the local state, so every
    top-level key may be missing; a key that is present holds a value
    of the shape that [JSON.stringify(state)] writes. *)
Record Doc := mkDoc {
  d_currentIntake : option Z;
  d_dailyGoal : option Z;
  d_xp : option Z;
  d_totalXp : option Z;
  d_level : option Z;
  d_streak : option Z;
  d_lastDrinkDate : option (option Z);
  d_history : option (list HistoryEntry);
  d_achievements : option (gmap string Unlock);
  d_settings : option Settings;
  d_stats : option Stats
}.

(** The document that [JSON.stringify(state)] produces. *)
Definition toDoc (s : State) : Doc :=
  mkDoc (Some (currentIntake s)) (Some (dailyGoal s)) (Some (xp s))
        (Some (totalXp s)) (Some (level s)) (Some (streak s))
        (Some (lastDrinkDate s)) (Some (history s)) (Some (achievements s))
        (Some (settings s)) (Some (stats s)).

(** [{ ...this.state, ...cloudState }]. *)
Definition spread (s : State) (d : Doc) : State :=
  mkState (default (currentIntake s) (d_currentIntake d))
          (default (dailyGoal s) (d_dailyGoal d))
          (default (xp s) (d_xp d))
          (default (totalXp s) (d_totalXp d))
          (default (level s) (d_level d))
          (default (streak s) (d_streak d))
          (default (lastDrinkDate s) (d_lastDrinkDate d))
          (default (history s) (d_history d))
          (default (achievements s) (d_achievements d))
          (default (settings s) (d_settings d))
          (default (stats s) (d_stats d)).

(** The test both sign-in paths make on the fetched document. *)
Definition cloudWins (s : State) (cloudState : Doc) : bool :=
  (totalXp s <? default 0 (d_totalXp cloudState))
  || (totalWater (stats s) <? default 0 (totalWater <$> d_stats cloudState)).

Record User := mkUser { email : string; token : string }.

Inductive Method := GET | PUT | DELETE.

(** A call of [fetch] on [API_URL/state]. *)
Record Request := mkRequest {
  method : Method;
  bearer : string;
  body : option State
}.

Record Response := mkResponse {
  status : Z;
  ok : bool;
  json : Exc (option Doc)
}.

(** The places that ask Cognito for the current user. *)
Inductive CallSite := AtSession | AtLoad | AtSave | AtDelete.

(** Everything outside the page: what Cognito and the network answer
    to each call.  Any value of this record is a possible run. *)
Record Env := mkEnv {
  env_signIn : string -> string -> Exc User;
  env_currentUser : CallSite -> Exc (option User);
  env_fetch : Request -> Exc Response
}.

(** The page's side of the synchronisation. *)
Record World := mkWorld {
  w_state : State;
  isAuthenticated : bool;
  userEmail : option string;
  localStorage : option State;
  requests : list Request
}.

(** Computations that read the environment, change the world and may
    throw; what was changed before a throw stays changed. *)
Definition M (A : Type) : Type := Env -> World -> Exc A * World.

Definition ret {A} (a : A) : M A := fun _ w => (Ok a, w).

Definition bind {A B} (m : M A) (f : A -> M B) : M B :=
  fun env w =>
    match m env w with
    | (Ok a, w') => f a env w'
    | (Throw e, w') => (Throw e, w')
    end.

Definition throw {A} (e : string) : M A := fun _ w => (Throw e, w).

Definition tryCatch {A} (m : M A) (handler : string -> M A) : M A :=
  fun env w =>
    match m env w with
    | (Ok a, w') => (Ok a, w')
    | (Throw e, w') => handler e env w'
    end.

Declare Scope js_scope.
Delimit Scope js_scope with js.
Notation "'let*' x ':=' m 'in' k" := (bind m (fun x => k))
  (at level 10, x name, m at level 100, k at level 200, only parsing)
  : js_scope.

Definition getCurrentUser (site : CallSite) : M (option User) :=
  fun env w => (env_currentUser env site, w).

(** [getToken()]. *)
Definition getToken (site : CallSite) : M (option string) :=
  (let* user := getCurrentUser site in ret (token <$> user))%js.

Definition fetch (r : Request) : M Response :=
  fun env w =>
    (env_fetch env r,
     mkWorld (w_state w) (isAuthenticated w) (userEmail w) (localStorage w)
             (requests w ++ [r])).

Definition resJson (res : Response) : M (option Doc) :=
  fun _ w => (json res, w).

Definition signIn (em pw : string) : M User :=
  fun env w => (env_signIn env em pw, w).

Definition getState : M State := fun _ w => (Ok (w_state w), w).

Definition putState (s : State) : M unit :=
  fun _ w =>
    (Ok tt, mkWorld s (isAuthenticated w) (userEmail w) (localStorage w)
                    (requests w)).

Definition setAuthenticated (em : string) : M unit :=
  fun _ w =>
    (Ok tt, mkWorld (w_state w) true (Some em) (localStorage w) (requests w)).

(** [saveStateLocal()]. *)
Definition saveStateLocal : M unit :=
  fun _ w =>
    (Ok tt, mkWorld (w_state w) (isAuthenticated w) (userEmail w)
                    (Some (w_state w)) (requests w)).

(** [SyncManager.loadFromCloud()].  [if (!token) return null] stops
    on [null] and on the empty string, which is falsy too. *)
Definition loadFromCloud : M (option Doc) :=
  tryCatch
    (let* tok := getToken AtLoad in
     match tok with
     | None => ret None
     | Some t =>
         if bool_decide (t = EmptyString) then ret None
         else
           let* res := fetch (mkRequest GET t None) in
           if status res =? 404 then ret None
           else if negb (ok res) then throw "HTTP"
           else resJson res
     end)%js
    (fun _ => ret None).

(** [SyncManager.saveToCloud(state)], with the same test of the
    token; [isSyncing] is never read. *)
Definition saveToCloud (s : State) : M bool :=
  tryCatch
    (let* tok := getToken AtSave in
     match tok with
     | None => ret false
     | Some t =>
         if bool_decide (t = EmptyString) then ret false
         else
           let* res := fetch (mkRequest PUT t (Some s)) in
           ret (ok res)
     end)%js
    (fun _ => ret false).

(** [SyncManager.deleteFromCloud()]. *)
Definition deleteFromCloud : M bool :=
  tryCatch
    (let* tok := getToken AtDelete in
     match tok with
     | None => ret false
     | Some t =>
         if bool_decide (t = EmptyString) then ret false
         else
           let* res := fetch (mkRequest DELETE t None) in
           ret (ok res)
     end)%js
    (fun _ => ret false).

(** [updateDisplay()].  It writes to the document only; of its steps
    the call of [getXPForCurrentLevel] can throw, and [updateDisplay]
    passes the throw on to its caller.  [renderAchievements()], which
    the sign-in code calls next, only reads the achievements and does
    not throw. *)
Definition updateDisplay : M unit :=
  (let* s := getState in
   match getXPForCurrentLevel s with
   | Ok _ => ret tt
   | Throw e => throw e
   end)%js.

(** [checkExistingSession()]. *)
Definition checkExistingSession : M unit :=
  tryCatch
    (let* user := getCurrentUser AtSession in
     match user with
     | Some u =>
         let* _ := setAuthenticated (email u) in
         let* cloudState := loadFromCloud in
         match cloudState with
         | Some d =>
             let* s := getState in
             if cloudWins s d
             then
               let* _ := putState (spread s d) in
               let* _ := saveStateLocal in
               updateDisplay
             else ret tt
         | None => ret tt
         end
     | None => ret tt
     end)%js
    (fun _ => ret tt).

(** [handleSignIn()], with the contents of the two form fields (the
    e-mail already trimmed).  A throw of the render after the document
    is adopted is caught like any other: the upload and the local save
    are then skipped. *)
Definition handleSignIn (em pw : string) : M unit :=
  if bool_decide (em = EmptyString) || bool_decide (pw = EmptyString) then ret tt
  else
    tryCatch
      (let* user := signIn em pw in
       let* _ := setAuthenticated (email user) in
       let* cloudState := loadFromCloud in
       let* _ := match cloudState with
                 | Some d =>
                     let* s := getState in
                     if cloudWins s d
                     then let* _ := putState (spread s d) in updateDisplay
                     else ret tt
                 | None => ret tt
                 end in
       let* s := getState in
       let* _ := saveToCloud s in
       saveStateLocal)%js
      (fun _ => ret tt).

(** ** Quantities used in the statements *)

(** The rewards of the entries of [l] that are present in a map. *)
Definition earnedIn (l : list Achievement) (m : gmap string Unlock) : Z :=
  foldr (fun a acc =>
           (if bool_decide (is_Some (m !! ach_id a)) then ach_xp a else 0) + acc)
        0 l.

(** The rewards of the unlocked catalogue entries. *)
Definition earned (s : State) : Z := earnedIn achievementsDef (achievements s).

(** The fields that only [addWater], the rollover and the settings
    forms write: everything but [xp], [totalXp], [level] and
    [achievements]. *)
Definition sameGame (s s' : State) : Prop :=
  currentIntake s = currentIntake s' /\ dailyGoal s = dailyGoal s' /\
  streak s = streak s' /\ lastDrinkDate s = lastDrinkDate s' /\
  history s = history s' /\ settings s = settings s' /\ stats s = stats s'.

(** How many more times the level can rise. *)
Definition rank (s : State) : nat := Z.to_nat (10 - Z.max 0 (level s)).

(** The level agrees with the table. *)
Definition levelInv (s : State) : Prop :=
  0 <= totalXp s /\ level s = newLevelFor (totalXp s).

Definition sumXp (l : list Achievement) : Z :=
  foldr (fun a acc => ach_xp a + acc) 0 l.

(** [addWater] crosses the goal: it was not reached before the call
    and is reached after it. *)
Definition goalCrossed (amt : Z) (s : State) : bool :=
  (currentIntake s <? dailyGoal s) && (dailyGoal s <=? currentIntake s + amt).

(** [lv] is the level of the largest table entry that [txp] pays. *)
Definition isLargestEntry (lv txp : Z) : Prop :=
  (exists l, l ∈ levels /\ lv_level l = lv /\ xpRequired l <= txp) /\
  (forall l, l ∈ levels -> xpRequired l <= txp -> lv_level l <= lv).

(** Every catalogue entry whose condition holds is unlocked. *)
Definition saturated (s : State) : Prop :=
  forall a, a ∈ achievementsDef -> condition a s = true -> isUnlocked a s = true.

(** What the first loop of [checkAchievements] does to the state:
    it unlocks, one after the other, entries that are locked and whose
    condition holds. *)
Inductive unlocks (now : Z) : State -> list Achievement -> State -> Prop :=
| unlocks_nil s : unlocks now s [] s
| unlocks_cons s a new s' :
    a ∈ achievementsDef ->
    isUnlocked a s = false ->
    condition a s = true ->
    unlocks now (unlock now a s) new s' ->
    unlocks now s (a :: new) s'.

(** [value] clamped into [lo, hi]. *)
Definition clamp (lo hi value : Z) : Z := Z.max lo (Z.min hi value).

Definition noon : Z := 12 * msPerHour.

(** [bestStreak] bounds the streak and is not negative. *)
Definition streakInv (s : State) : Prop :=
  0 <= bestStreak (stats s) /\ streak s <= bestStreak (stats s).

(** The world after [fetch] calls [rs]. *)
Definition addRequests (rs : list Request) (w : World) : World :=
  mkWorld (w_state w) (isAuthenticated w) (userEmail w) (localStorage w)
          (requests w ++ rs).

(** ** Concrete states and runs used below *)

(** A state with a streak of 5 whose last drink, 500 ml against a
    goal of 2000, was on day 0. *)
Definition missedYesterday : State :=
  mkState 500 2000 20 45 1 5 (Some 0) [mkEntry 500 noon 0]
          {["first_drop" := mkUnlock noon]} (settings initialState)
          (mkStats 5 10500 5 5 1).

(** A state with a streak of 5 whose last drinks, 1500 ml and 500 ml
    against a goal of 2000, were on day 1, after 300 ml on day 0. *)
Definition metYesterday : State :=
  mkState 2000 2000 92 92 1 5 (Some 1)
          [ mkEntry 300 noon 0;
            mkEntry 1500 (msPerDay + noon) 1;
            mkEntry 500 (msPerDay + noon + msPerHour) 1 ]
          {["first_drop" := mkUnlock noon]} (settings initialState)
          (mkStats 5 2300 5 5 3).

(** The same with 2000 ml on day 0 and only 500 ml on day 1. *)
Definition missedAfterGoodDay : State :=
  set_history [ mkEntry 2000 noon 0; mkEntry 500 (msPerDay + noon) 1 ]
              metYesterday.

Definition twoDays : list Op :=
  [ OpAddWater noon 2000; OpSaveSettings (Some 500) true false ].

Definition nextDay : list Op :=
  [ OpCheckNewDay (msPerDay + noon); OpAddWater (msPerDay + noon) 500 ].

Definition alice : User := mkUser "alice@example.org" "jwt".

(** The state of a device on which 2000 ml were logged, and the
    document of an account that still holds the initial state. *)
Definition localAhead : State := addWater noon 2000 initialState.
Definition staleDoc : Doc := toDoc initialState.

(** Cognito knows the user and the network answers every request with
    200 and the document [d]. *)
Definition onlineEnv (d : Doc) : Env :=
  mkEnv (fun _ _ => Ok alice)
        (fun _ => Ok (Some alice))
        (fun _ => Ok (mkResponse 200 true (Ok (Some d)))).

(** No session: Cognito has no current user. *)
Definition signedOutEnv : Env :=
  mkEnv (fun _ _ => Throw "NotAuthorizedException")
        (fun _ => Ok None)
        (fun _ => Throw "TypeError: Failed to fetch").

Definition startWorld (s : State) : World := mkWorld s false None (Some s) [].

(** Two devices of one account: on the first the goal was lowered to
    500 and met, on the second it was raised to 5000 and 600 ml were
    logged. *)
Definition goalMet : State :=
  runOps [OpSaveSettings (Some 500) true false; OpAddWater noon 500] initialState.
Definition moreWater : State :=
  runOps [OpSaveSettings (Some 5000) true false; OpAddWater noon 600] initialState.

(** ** The weekly chart *)

(** The intake of one bar of [renderWeeklyChart]: the amounts of the
    entries whose [date] field is [dateStr]. *)
Definition chartIntake (dateStr : Z) (s : State) : Z :=
  foldl (fun sum h => sum + amount h) 0
        (filter (fun h => date h = dateStr) (history s)).

(** The weekday names of [renderWeeklyChart]. *)
Definition days : list string :=
  ["Sun"; "Mon"; "Tue"; "Wed"; "Thu"; "Fri"; "Sat"].

(** [date.getDay()] of a day number; day 0 is a Thursday. *)
Definition getDay (d : Z) : Z := (d + 4) mod 7.

(** An element of [weeklyData], without its floating-point
    [percentage]. *)
Record WeekDay := mkWeekDay {
  wd_date : Z;
  wd_day : string;
  intake : Z;
  isToday : bool;
  isComplete : bool
}.

(** The loop of [renderWeeklyChart], [i] running from 6 down to 0. *)
Definition weeklyData (now : Z) (s : State) : list WeekDay :=
  (fun i =>
     let d := toDateString now - i in
     let intake := chartIntake d s in
     mkWeekDay d (default EmptyString (days !! Z.to_nat (getDay d))) intake
               (bool_decide (i = 0)) (dailyGoal s <=? intake))
  <$> [6; 5; 4; 3; 2; 1; 0].

(** [reduce((sum, d) => sum + d.intake, 0)]. *)
Definition sumIntake (l : list WeekDay) : Z :=
  foldl (fun sum d => sum + intake d) 0 l.

(** [weekTotal] of [renderWeeklyChart]. *)
Definition weekTotal (now : Z) (s : State) : Z := sumIntake (weeklyData now s).

(** ** Reminders *)

From Stdlib Require Import Ascii.

(** [str.split(sep)] for a one-character separator. *)
Fixpoint jsSplit (sep : Ascii.ascii) (str : string) : list string :=
  match str with
  | EmptyString => [EmptyString]
  | String c rest =>
      if Ascii.eqb c sep then EmptyString :: jsSplit sep rest
      else match jsSplit sep rest with
           | w :: ws => String c w :: ws
           | [] => [String c EmptyString]
           end
  end.

(** [new Date(t).getMinutes()]. *)
Definition getMinutes (t : Z) : Z := (t mod msPerHour) / 60000.

(** [h * 60 + m] on numbers that may be [NaN] ([None]); a missing
    array element is [undefined] and gives [NaN] too. *)
Definition minutesOf (h m : option (option Z)) : option Z :=
  match h, m with
  | Some (Some h'), Some (Some m') => Some (h' * 60 + m')
  | _, _ => None
  end.

(** [isWithinActiveHours()] at the instant [now].  [Number] is the
    JavaScript conversion of the two parts of a time field, [None]
    when it yields [NaN]; a comparison with [NaN] is false. *)
Definition isWithinActiveHours (Number : string -> option Z) (now : Z)
    (s : State) : bool :=
  let currentTime := getHours now * 60 + getMinutes now in
  let start := Number <$> jsSplit ":"%char (startTime (settings s)) in
  let stop := Number <$> jsSplit ":"%char (endTime (settings s)) in
  let startMinutes := minutesOf (start !! 0%nat) (start !! 1%nat) in
  let endMinutes := minutesOf (stop !! 0%nat) (stop !! 1%nat) in
  match startMinutes, endMinutes with
  | Some a, Some b => (a <=? currentTime) && (currentTime <=? b)
  | _, _ => false
  end.

(** The minutes of a time field as [isWithinActiveHours] computes
    them. *)
Definition clockMinutes (Number : string -> option Z) (str : string)
  : option Z :=
  let parts := Number <$> jsSplit ":"%char str in
  minutesOf (parts !! 0%nat) (parts !! 1%nat).

(** ** Further quantities used in the statements *)

(** The state of [addWater] when it first calls [addXP]. *)
Definition logged (now amt : Z) (s : State) : State :=
  set_stats (bumpGlasses amt (stats s))
    (set_history (history s ++ [mkEntry amt now (toDateString now)])
       (set_lastDrinkDate (Some (toDateString now))
          (set_currentIntake (currentIntake s + amt) s))).

(** The state of [handleGoalAchieved] when it calls [addXP]. *)
Definition goalMarked (s : State) : State :=
  set_stats
    (mkStats (totalDays (stats s) + 1) (totalWater (stats s))
             (perfectDays (stats s) + 1)
             (if bestStreak (stats s) <? streak s + 1 then streak s + 1
              else bestStreak (stats s))
             (glassesCount (stats s)))
    (set_streak (streak s + 1) s).

Definition sumAmounts (l : list HistoryEntry) : Z :=
  foldr (fun h acc => amount h + acc) 0 l.

(** The XP that the logged amounts earned: [floor(amount / 25)] each. *)
Definition waterXp (l : list HistoryEntry) : Z :=
  foldr (fun h acc => amount h / 25 + acc) 0 l.

(** The four achievements whose condition reads the streak, which a
    rollover can take back to 0. *)
Definition isStreakAchievement (a : Achievement) : bool :=
  bool_decide (ach_id a ∈ ["hydration_habit"; "week_warrior";
                           "hydration_hero"; "monthly_master"]).

(** A run in which the rollover has been made on the day of every
    [addWater] and the days never go back; [rolled] is the day of the
    last rollover. *)
Fixpoint disciplined (rolled : option Z) (ops : list Op) : Prop :=
  match ops with
  | [] => True
  | OpCheckNewDay now :: ops' =>
      (forall d, rolled = Some d -> d <= toDateString now) /\
      disciplined (Some (toDateString now)) ops'
  | OpAddWater now amt :: ops' =>
      rolled = Some (toDateString now) /\ disciplined rolled ops'
  | _ :: ops' => disciplined rolled ops'
  end.

Fixpoint lastRolled (rolled : option Z) (ops : list Op) : option Z :=
  match ops with
  | [] => rolled
  | OpCheckNewDay now :: ops' => lastRolled (Some (toDateString now)) ops'
  | _ :: ops' => lastRolled rolled ops'
  end.

(** Operations that neither start a day nor touch the goal. *)
Definition keepsDay (o : Op) : Prop :=
  match o with
  | OpAddWater _ amt => 0 <= amt
  | OpEnableReminders _ _ _ | OpDisableReminders => True
  | _ => False
  end.

(** A conversion for the witnesses: decimal digits, [NaN] otherwise. *)
Fixpoint digits (acc : Z) (str : string) : option Z :=
  match str with
  | EmptyString => Some acc
  | String c rest =>
      let n := Z.of_nat (Ascii.nat_of_ascii c) - 48 in
      if (0 <=? n) && (n <=? 9) then digits (acc * 10 + n) rest else None
  end.


(** The counters agree with the history and the XP with its sources. *)
Definition accounted (s : State) : Prop :=
  totalXp s = waterXp (history s) + 100 * perfectDays (stats s) + earned s /\
  totalWater (stats s) = sumAmounts (history s) /\
  glassesCount (stats s) = Z.of_nat (length (history s)).

(** Every unlocked achievement that does not read the streak has its
    condition true. *)
Definition sound (s : State) : Prop :=
  forall a, a ∈ achievementsDef -> isStreakAchievement a = false ->
            isUnlocked a s = true -> condition a s = true.

(** [s'] has at least the counters, the level and the history of [s]. *)
Definition grows (s s' : State) : Prop :=
  glassesCount (stats s) <= glassesCount (stats s') /\
  perfectDays (stats s) <= perfectDays (stats s') /\
  totalWater (stats s) <= totalWater (stats s') /\
  level s <= level s' /\
  history s `prefix_of` history s'.

(** Every unlocked id is an id of the catalogue. *)
Definition knownIds (s : State) : Prop :=
  forall i, is_Some (achievements s !! i) ->
            exists a, a ∈ achievementsDef /\ ach_id a = i.

(** The ranges of the numeric fields. *)
Definition inRange (s : State) : Prop :=
  500 <= dailyGoal s <= 5000 /\ 0 <= currentIntake s /\ 0 <= streak s /\
  0 <= totalDays (stats s) /\ 0 <= totalWater (stats s) /\
  0 <= perfectDays (stats s) /\ 0 <= bestStreak (stats s) /\
  0 <= glassesCount (stats s).

(** What a disciplined run keeps: the history is not later than the
    last drink, and the intake is that of the day of the last
    rollover. *)
Definition dayInv (rolled : option Z) (s : State) : Prop :=
  match lastDrinkDate s with
  | None => history s = []
  | Some ld => forall h, h ∈ history s -> toDateString (timestamp h) <= ld
  end /\
  match rolled with
  | None => lastDrinkDate s = None /\ currentIntake s = 0
  | Some d =>
      currentIntake s = getIntakeForDate d s /\
      forall ld, lastDrinkDate s = Some ld -> ld <= d
  end.

Definition firstDrop : Achievement :=
  mkAchievement "first_drop" "First Drop" 25
    (fun s => 1 <=? glassesCount (stats s)).

(** A morning: the rollover, then two glasses. *)
Definition morning : list Op :=
  [ OpCheckNewDay (msPerDay + noon);
    OpAddWater (msPerDay + noon) 250;
    OpAddWater (msPerDay + noon + msPerHour) 250 ].

(** The state that a sign-in path leaves when [loadFromCloud] returned
    [v]. *)
Definition merged (s : State) (v : option Doc) : State :=
  match v with
  | Some d => if cloudWins s d then spread s d else s
  | None => s
  end.

(** Reminders over midnight, from 22:00 to 06:00. *)
Definition overnight : State :=
  set_settings (mkSettings true true 60 "22:00" "06:00") initialState.

(** What a cloud operation sends: one request with the token of the
    current user when there is a user whose token is not empty,
    nothing otherwise. *)
Definition sentWith (env : Env) (site : CallSite) (m : Method)
    (b : option State) (rs : list Request) : Prop :=
  match env_currentUser env site with
  | Ok (Some u) =>
      if bool_decide (token u = EmptyString) then rs = []
      else rs = [mkRequest m (token u) b]
  | _ => rs = []
  end.

(** [handleSignIn] adopts the document that [loadFromCloud] returned
    and the render of the adopted state throws. *)
Definition renderThrows (s : State) (v : option Doc) : bool :=
  match v with
  | Some d => cloudWins s d && bool_decide (level (spread s d) = 0)
  | None => false
  end.

(** * Properties *)

(** ** The catalogue and the level table *)

Ltac each_achievement H :=
  unfold achievementsDef in H;
  repeat (apply elem_of_cons in H as [-> | H]);
  [ .. | apply elem_of_nil in H; destruct H ].

Lemma ach_xp_nonneg a : a ∈ achievementsDef -> 0 <= ach_xp a.
Proof. intros H. each_achievement H; simpl; lia. Qed.

Lemma ach_ids_NoDup : NoDup (ach_id <$> achievementsDef).
Proof. apply (bool_decide_unpack _). vm_compute. reflexivity. Qed.

(** The conditions read [stats], [streak], [history] and [level] only. *)
Lemma condition_frame a s s' :
  a ∈ achievementsDef ->
  stats s = stats s' -> streak s = streak s' ->
  history s = history s' -> level s = level s' ->
  condition a s = condition a s'.
Proof.
  intros H E1 E2 E3 E4.
  each_achievement H; simpl; rewrite ?E1, ?E2, ?E3, ?E4; reflexivity.
Qed.

Lemma newLevelFor_unfold t :
  newLevelFor t =
  if 4000 <=? t then 10 else if 3000 <=? t then 9 else
  if 2300 <=? t then 8 else if 1700 <=? t then 7 else
  if 1200 <=? t then 6 else if 800 <=? t then 5 else
  if 500 <=? t then 4 else if 250 <=? t then 3 else
  if 100 <=? t then 2 else 1.
Proof.
  unfold newLevelFor; simpl.
  repeat (destruct (_ <=? t); [reflexivity |]); reflexivity.
Qed.

Ltac level_cases :=
  rewrite ?newLevelFor_unfold;
  repeat match goal with
         | |- context [?a <=? ?b] => destruct (Z.leb_spec a b)
         end.

Lemma newLevelFor_range t : 1 <= newLevelFor t <= 10.
Proof. level_cases; lia. Qed.

Lemma newLevelFor_mono t t' : t <= t' -> newLevelFor t <= newLevelFor t'.
Proof. intros H. level_cases; lia. Qed.

Lemma newLevelFor_largest t : 0 <= t -> isLargestEntry (newLevelFor t) t.
Proof.
  intros Ht. split.
  - apply (proj1 (Exists_exists _ _)). unfold levels.
    level_cases;
      repeat first [ apply Exists_cons_hd; simpl; split; [reflexivity | lia]
                   | apply Exists_cons_tl ].
  - intros l Hl Hx. unfold levels in Hl.
    repeat (apply elem_of_cons in Hl as [-> | Hl]);
      [ .. | apply elem_of_nil in Hl; destruct Hl ];
      simpl in *; level_cases; lia.
Qed.

(** ** The unlocking pass *)

Lemma set_achievements_same s : set_achievements (achievements s) s = s.
Proof. destruct s; reflexivity. Qed.

Lemma isUnlocked_false a s :
  isUnlocked a s = false <-> achievements s !! ach_id a = None.
Proof.
  unfold isUnlocked. rewrite bool_decide_eq_false, <- eq_None_not_Some.
  reflexivity.
Qed.

Lemma isUnlocked_true a s :
  isUnlocked a s = true <-> is_Some (achievements s !! ach_id a).
Proof. unfold isUnlocked. apply bool_decide_eq_true. Qed.

Lemma unlocks_fields now s new s' :
  unlocks now s new s' -> s' = set_achievements (achievements s') s.
Proof.
  induction 1 as [s | s a new s' _ _ _ _ IH].
  - symmetry. apply set_achievements_same.
  - rewrite IH. destruct s; reflexivity.
Qed.

Lemma unlocks_subseteq now s new s' :
  unlocks now s new s' -> achievements s ⊆ achievements s'.
Proof.
  induction 1 as [s | s a new s' _ Hu _ _ IH]; [reflexivity |].
  etrans; [| exact IH]. simpl.
  apply insert_subseteq. apply isUnlocked_false. exact Hu.
Qed.

Lemma unlocks_isUnlocked now s new s' a :
  unlocks now s new s' -> isUnlocked a s = true -> isUnlocked a s' = true.
Proof.
  intros H. rewrite !isUnlocked_true. intros [u Hu].
  exists u. eapply lookup_weaken; [exact Hu |].
  eapply unlocks_subseteq; exact H.
Qed.

Lemma unlocks_condition now s new s' a :
  unlocks now s new s' -> a ∈ achievementsDef ->
  condition a s' = condition a s.
Proof.
  intros H Ha. rewrite (unlocks_fields _ _ _ _ H).
  apply condition_frame; [exact Ha | reflexivity ..].
Qed.

Lemma unlocks_In now s new s' a :
  unlocks now s new s' -> a ∈ new -> a ∈ achievementsDef.
Proof.
  induction 1 as [s | s b new s' Hb _ _ _ IH]; intros Ha.
  - apply elem_of_nil in Ha. destruct Ha.
  - apply elem_of_cons in Ha as [-> | Ha]; [exact Hb | exact (IH Ha)].
Qed.

Lemma unlockFold_spec now l :
  (forall a, a ∈ l -> a ∈ achievementsDef) ->
  forall s acc, exists new s1,
    foldl (unlockStep now) (s, acc) l = (s1, acc ++ new) /\
    unlocks now s new s1 /\
    (forall a, a ∈ l -> condition a s = true -> isUnlocked a s1 = true) /\
    ((forall a, a ∈ l -> condition a s = true -> isUnlocked a s = true) ->
     new = []).
Proof.
  induction l as [| a l IH]; intros Hsub s acc.
  - exists [], s. simpl. rewrite app_nil_r.
    split_and!; [reflexivity | constructor | | reflexivity].
    intros a Ha. apply elem_of_nil in Ha. destruct Ha.
  - assert (Ha : a ∈ achievementsDef) by (apply Hsub; left).
    assert (Hl : forall b, b ∈ l -> b ∈ achievementsDef)
      by (intros b Hb; apply Hsub; right; exact Hb).
    simpl. destruct (isUnlocked a s) eqn:U; simpl.
    + destruct (IH Hl s acc) as (new & s1 & E & Hun & Hsat & Hnil).
      exists new, s1. split_and!; [exact E | exact Hun | |].
      * intros b Hb Hc. apply elem_of_cons in Hb as [-> | Hb].
        -- eapply unlocks_isUnlocked; [exact Hun | exact U].
        -- apply Hsat; assumption.
      * intros Hall. apply Hnil. intros b Hb. apply Hall. right. exact Hb.
    + destruct (condition a s) eqn:C.
      * destruct (IH Hl (unlock now a s) (acc ++ [a]))
          as (new & s1 & E & Hun & Hsat & Hnil).
        exists (a :: new), s1. split_and!.
        -- rewrite E, <- app_assoc. reflexivity.
        -- constructor; assumption.
        -- intros b Hb Hc. apply elem_of_cons in Hb as [-> | Hb].
           ++ eapply unlocks_isUnlocked; [exact Hun |].
              apply isUnlocked_true. simpl. rewrite lookup_insert_eq. eauto.
           ++ apply Hsat; [exact Hb |]. rewrite <- Hc.
              apply condition_frame; [apply Hl, Hb | reflexivity ..].
        -- intros Hall. rewrite Hall in U; [discriminate | left | exact C].
      * destruct (IH Hl s acc) as (new & s1 & E & Hun & Hsat & Hnil).
        exists new, s1. split_and!; [exact E | exact Hun | |].
        -- intros b Hb Hc. apply elem_of_cons in Hb as [-> | Hb].
           ++ congruence.
           ++ apply Hsat; assumption.
        -- intros Hall. apply Hnil. intros b Hb. apply Hall. right. exact Hb.
Qed.

Lemma unlockPass_spec now s :
  exists new s1,
    unlockPass now s = (s1, new) /\
    unlocks now s new s1 /\
    saturated s1 /\
    (saturated s -> new = []).
Proof.
  destruct (unlockFold_spec now achievementsDef (fun _ H => H) s [])
    as (new & s1 & E & Hun & Hsat & Hnil).
  exists new, s1. split_and!; [exact E | exact Hun | | exact Hnil].
  intros a Ha Hc. apply Hsat; [exact Ha |].
  rewrite <- Hc. symmetry. eapply unlocks_condition; eassumption.
Qed.

Lemma findLevel_outside n : n < 1 \/ 10 < n -> findLevel n = None.
Proof.
  intros H. unfold findLevel, levels. cbn [find lv_level].
  repeat (rewrite bool_decide_eq_false_2 by lia). reflexivity.
Qed.

Lemma findLevel_inside n :
  1 <= n <= 10 ->
  exists l, findLevel n = Some l /\ l ∈ levels /\ lv_level l = n.
Proof.
  intros H. unfold findLevel.
  destruct (find _ levels) as [l |] eqn:E.
  - exists l. split; [reflexivity |].
    apply find_some in E as [Hin E]. split.
    + apply list_elem_of_In. exact Hin.
    + apply bool_decide_eq_true in E. exact E.
  - exfalso. unfold levels in E. cbn [find lv_level] in E.
    repeat case_bool_decide; try discriminate; lia.
Qed.

(** ** Termination of the nested evaluation *)

Arguments unlockPass : simpl never.
Arguments newLevelFor : simpl never.

Lemma rank_le s s' : level s <= level s' -> (rank s' <= rank s)%nat.
Proof. unfold rank. lia. Qed.

Lemma rank_set_level s t :
  level s < newLevelFor t -> (rank (set_level (newLevelFor t) s) < rank s)%nat.
Proof. pose proof (newLevelFor_range t). unfold rank. simpl. lia. Qed.

Lemma rank_maxDepth s : (rank s < maxDepth)%nat.
Proof. unfold rank, maxDepth. lia. Qed.

Lemma addXPK_total k f n s :
  (forall s, (rank s < f)%nat -> exists s', k s = Some s' /\ level s <= level s') ->
  (rank s <= f)%nat ->
  exists s', addXPK k n s = Some s' /\ level s <= level s'.
Proof.
  intros Hk Hr. unfold addXPK, checkLevelUpK.
  destruct (Z.ltb_spec (level (gainXP n s)) (newLevelFor (totalXp (gainXP n s))))
    as [Hlt | Hge].
  - destruct (Hk (set_level (newLevelFor (totalXp (gainXP n s))) (gainXP n s)))
      as (s' & E & Hl).
    + pose proof (rank_set_level (gainXP n s) _ Hlt) as Hlt'.
      change (rank (gainXP n s)) with (rank s) in Hlt'. lia.
    + exists s'. split; [exact E |]. simpl in Hl, Hlt. lia.
  - exists (gainXP n s). split; [reflexivity | simpl; lia].
Qed.

Lemma grantAll_total k f l :
  (forall s, (rank s < f)%nat -> exists s', k s = Some s' /\ level s <= level s') ->
  forall s, (rank s <= f)%nat ->
  exists s', grantAll k l s = Some s' /\ level s <= level s'.
Proof.
  intros Hk. induction l as [| a l IH]; intros s Hr; simpl.
  - exists s. split; [reflexivity | lia].
  - destruct (addXPK_total k f (ach_xp a) s Hk Hr) as (s1 & E & Hl).
    rewrite E. destruct (IH s1) as (s' & E' & Hl').
    + pose proof (rank_le _ _ Hl). lia.
    + exists s'. split; [exact E' | lia].
Qed.

Lemma checkAchievementsF_S f now s :
  checkAchievementsF (S f) now s =
  let '(s1, new) := unlockPass now s in
  grantAll (checkAchievementsF f now) new s1.
Proof. reflexivity. Qed.

Lemma checkAchievementsF_total fuel now s :
  (rank s < fuel)%nat ->
  exists s', checkAchievementsF fuel now s = Some s' /\ level s <= level s'.
Proof.
  revert s. induction fuel as [| f IH]; intros s Hr; [lia |].
  destruct (unlockPass_spec now s) as (new & s1 & E & Hun & _).
  rewrite checkAchievementsF_S, E. apply unlocks_fields in Hun.
  assert (Hlv : level s1 = level s) by (rewrite Hun; reflexivity).
  destruct (grantAll_total (checkAchievementsF f now) f new IH s1)
    as (s' & E' & Hl).
  - unfold rank in *. rewrite Hlv. lia.
  - exists s'. split; [exact E' | lia].
Qed.

(** More fuel than needed changes nothing. *)
Lemma grantAll_mono_k (k k' : State -> option State) l :
  (forall s s', k s = Some s' -> k' s = Some s') ->
  forall s s', grantAll k l s = Some s' -> grantAll k' l s = Some s'.
Proof.
  intros Hk. induction l as [| a l IH]; intros s s'; simpl; [trivial |].
  unfold addXPK, checkLevelUpK.
  destruct (_ <? _); simpl.
  - destruct (k _) as [s1 |] eqn:E; [| discriminate].
    rewrite (Hk _ _ E). apply IH.
  - apply IH.
Qed.

Lemma checkAchievementsF_more fuel now s s' :
  checkAchievementsF fuel now s = Some s' ->
  checkAchievementsF (S fuel) now s = Some s'.
Proof.
  revert s s'. induction fuel as [| f IH]; intros s s'; [discriminate |].
  rewrite (checkAchievementsF_S (S f)), (checkAchievementsF_S f).
  destruct (unlockPass now s) as [s1 new]. intros H.
  eapply grantAll_mono_k; [| exact H]. exact IH.
Qed.

Lemma checkAchievementsF_enough fuel now s :
  (maxDepth <= fuel)%nat ->
  checkAchievementsF fuel now s = Some (checkAchievements now s).
Proof.
  intros Hf. unfold checkAchievements.
  destruct (checkAchievementsF_total maxDepth now s (rank_maxDepth s))
    as (s' & E & _).
  rewrite E. simpl. induction Hf as [| m _ IH]; [exact E |].
  apply checkAchievementsF_more. exact IH.
Qed.

Lemma checkAchievements_eq now s :
  checkAchievementsF maxDepth now s = Some (checkAchievements now s).
Proof. apply checkAchievementsF_enough. lia. Qed.

Lemma addXP_eq now n s :
  addXPK (checkAchievementsF maxDepth now) n s = Some (addXP now n s).
Proof.
  unfold addXP.
  destruct (addXPK_total (checkAchievementsF maxDepth now) maxDepth n s)
    as (s' & E & _).
  - intros s0 _. apply checkAchievementsF_total, rank_maxDepth.
  - pose proof (rank_maxDepth s). lia.
  - rewrite E. reflexivity.
Qed.

(** ** Relations that every step of the evaluation keeps *)

Section Preserved.
Variable R : State -> State -> Prop.
Hypothesis R_refl : forall s, R s s.
Hypothesis R_trans : forall a b c, R a b -> R b c -> R a c.
Hypothesis R_unlock : forall now a s,
  a ∈ achievementsDef -> isUnlocked a s = false -> condition a s = true ->
  R s (unlock now a s).
Hypothesis R_level : forall s,
  level s < newLevelFor (totalXp s) ->
  R s (set_level (newLevelFor (totalXp s)) s).

Lemma unlocks_preserved now s new s' : unlocks now s new s' -> R s s'.
Proof.
  induction 1 as [s | s a new s' Ha Hu Hc _ IH]; [apply R_refl |].
  eapply R_trans; [apply R_unlock; eassumption | exact IH].
Qed.

Lemma addXPK_preserved k n s s' :
  (forall s s', k s = Some s' -> R s s') ->
  R s (gainXP n s) ->
  addXPK k n s = Some s' -> R s s'.
Proof.
  intros Hk Hg. unfold addXPK, checkLevelUpK.
  destruct (Z.ltb_spec (level (gainXP n s)) (newLevelFor (totalXp (gainXP n s))))
    as [Hlt | Hge]; intros E.
  - eapply R_trans; [exact Hg |].
    eapply R_trans; [apply R_level; exact Hlt | apply Hk; exact E].
  - injection E as <-. exact Hg.
Qed.

Hypothesis R_gain : forall a s, a ∈ achievementsDef -> R s (gainXP (ach_xp a) s).

Lemma grantAll_preserved k l :
  (forall s s', k s = Some s' -> R s s') ->
  (forall a, a ∈ l -> a ∈ achievementsDef) ->
  forall s s', grantAll k l s = Some s' -> R s s'.
Proof.
  intros Hk. induction l as [| a l IH]; intros Hl s s'; simpl.
  - intros [= <-]. apply R_refl.
  - destruct (addXPK k (ach_xp a) s) as [s1 |] eqn:E; [| discriminate].
    intros H. eapply R_trans.
    + eapply addXPK_preserved; [exact Hk | | exact E].
      apply R_gain, Hl. left.
    + apply IH; [| exact H]. intros b Hb. apply Hl. right. exact Hb.
Qed.

Lemma checkAchievementsF_preserved fuel now s s' :
  checkAchievementsF fuel now s = Some s' -> R s s'.
Proof.
  revert s s'. induction fuel as [| f IH]; intros s s'; [discriminate |].
  destruct (unlockPass_spec now s) as (new & s1 & E & Hun & _).
  rewrite checkAchievementsF_S, E. intros H. eapply R_trans.
  - eapply unlocks_preserved; exact Hun.
  - eapply grantAll_preserved; [exact IH | | exact H].
    intros a. eapply unlocks_In; exact Hun.
Qed.

Lemma checkAchievements_preserved now s : R s (checkAchievements now s).
Proof.
  eapply checkAchievementsF_preserved. apply checkAchievements_eq.
Qed.

Lemma addXP_preserved now n s :
  R s (gainXP n s) -> R s (addXP now n s).
Proof.
  intros Hg. eapply addXPK_preserved; [| exact Hg | apply addXP_eq].
  intros s0 s1. apply checkAchievementsF_preserved.
Qed.
End Preserved.

(** ** XP is granted once per unlocked achievement *)

Arguments earned : simpl never.

Lemma earnedIn_insert_fresh l (m : gmap string Unlock) i u :
  i ∉ (ach_id <$> l) -> earnedIn l (<[i:=u]> m) = earnedIn l m.
Proof.
  induction l as [| b l IH]; intros H; simpl; [reflexivity |].
  rewrite fmap_cons in H. apply not_elem_of_cons in H as [Hne Hl].
  rewrite lookup_insert_ne by exact Hne. rewrite (IH Hl). reflexivity.
Qed.

Lemma earnedIn_insert l (m : gmap string Unlock) a u :
  NoDup (ach_id <$> l) -> a ∈ l -> m !! ach_id a = None ->
  earnedIn l (<[ach_id a:=u]> m) = earnedIn l m + ach_xp a.
Proof.
  induction l as [| b l IH]; intros Hnd Ha Hm.
  - apply elem_of_nil in Ha. destruct Ha.
  - rewrite fmap_cons in Hnd. apply NoDup_cons in Hnd as [Hb Hnd].
    apply elem_of_cons in Ha as [-> | Ha]; simpl.
    + rewrite lookup_insert_eq, Hm.
      rewrite bool_decide_eq_true_2 by eauto.
      rewrite bool_decide_eq_false_2 by (intros [? ?]; discriminate).
      rewrite earnedIn_insert_fresh by exact Hb. lia.
    + assert (Hne : ach_id a <> ach_id b).
      { intros E. apply Hb. rewrite <- E. apply list_elem_of_fmap_2, Ha. }
      rewrite lookup_insert_ne by exact Hne.
      rewrite (IH Hnd Ha Hm). lia.
Qed.

Lemma earned_unlock now a s :
  a ∈ achievementsDef -> isUnlocked a s = false ->
  earned (unlock now a s) = earned s + ach_xp a.
Proof.
  intros Ha Hu. unfold earned.
  change (achievements (unlock now a s))
    with (<[ach_id a:=mkUnlock now]> (achievements s)).
  apply earnedIn_insert; [apply ach_ids_NoDup | exact Ha |].
  apply isUnlocked_false, Hu.
Qed.

Lemma unlocks_earned now s new s' :
  unlocks now s new s' ->
  earned s' = earned s + sumXp new /\ totalXp s' = totalXp s.
Proof.
  induction 1 as [s | s a new s' Ha Hu _ _ [IH1 IH2]]; simpl.
  - split; [lia | reflexivity].
  - rewrite IH1, IH2, (earned_unlock now a s Ha Hu). simpl. split; [lia | reflexivity].
Qed.

Lemma addXPK_earned k n s s' :
  (forall s s', k s = Some s' -> totalXp s' - earned s' = totalXp s - earned s) ->
  addXPK k n s = Some s' ->
  totalXp s' - earned s' = totalXp s + n - earned s.
Proof.
  intros Hk. unfold addXPK, checkLevelUpK.
  destruct (_ <? _); intros E.
  - apply Hk in E. rewrite E. reflexivity.
  - injection E as <-. reflexivity.
Qed.

Lemma grantAll_earned k l :
  (forall s s', k s = Some s' -> totalXp s' - earned s' = totalXp s - earned s) ->
  forall s s', grantAll k l s = Some s' ->
  totalXp s' - earned s' = totalXp s + sumXp l - earned s.
Proof.
  intros Hk. induction l as [| a l IH]; intros s s'; simpl.
  - intros [= <-]. lia.
  - destruct (addXPK k (ach_xp a) s) as [s1 |] eqn:E; [| discriminate].
    intros H. apply IH in H. apply (addXPK_earned k _ _ _ Hk) in E. lia.
Qed.

Lemma checkAchievementsF_earned fuel now s s' :
  checkAchievementsF fuel now s = Some s' ->
  totalXp s' - earned s' = totalXp s - earned s.
Proof.
  revert s s'. induction fuel as [| f IH]; intros s s'; [discriminate |].
  destruct (unlockPass_spec now s) as (new & s1 & E & Hun & _).
  rewrite checkAchievementsF_S, E. intros H.
  apply (grantAll_earned _ _ IH) in H.
  apply unlocks_earned in Hun as [H1 H2]. lia.
Qed.

Lemma checkAchievements_earned now s :
  totalXp (checkAchievements now s) - earned (checkAchievements now s)
  = totalXp s - earned s.
Proof. eapply checkAchievementsF_earned, checkAchievements_eq. Qed.

Lemma addXP_earned now n s :
  totalXp (addXP now n s) - earned (addXP now n s) = totalXp s + n - earned s.
Proof.
  eapply addXPK_earned; [| apply addXP_eq].
  intros s0 s1. apply checkAchievementsF_earned.
Qed.

(** ** After an evaluation nothing is left to unlock *)

Lemma saturated_frame s s' :
  stats s = stats s' -> streak s = streak s' -> history s = history s' ->
  level s = level s' -> achievements s = achievements s' ->
  saturated s -> saturated s'.
Proof.
  intros E1 E2 E3 E4 E5 Hs a Ha Hc.
  rewrite <- (condition_frame a s s' Ha E1 E2 E3 E4) in Hc.
  specialize (Hs a Ha Hc). unfold isUnlocked in *. rewrite <- E5. exact Hs.
Qed.

Lemma addXPK_saturated k n s s' :
  (forall s s', k s = Some s' -> saturated s') ->
  saturated s -> addXPK k n s = Some s' -> saturated s'.
Proof.
  intros Hk Hs. unfold addXPK, checkLevelUpK.
  destruct (_ <? _); intros E.
  - eapply Hk; exact E.
  - injection E as <-. eapply saturated_frame; [.. | exact Hs]; reflexivity.
Qed.

Lemma grantAll_saturated k l :
  (forall s s', k s = Some s' -> saturated s') ->
  forall s s', saturated s -> grantAll k l s = Some s' -> saturated s'.
Proof.
  intros Hk. induction l as [| a l IH]; intros s s' Hs; simpl.
  - intros [= <-]. exact Hs.
  - destruct (addXPK k (ach_xp a) s) as [s1 |] eqn:E; [| discriminate].
    apply IH. eapply addXPK_saturated; eassumption.
Qed.

Lemma checkAchievementsF_saturated fuel now s s' :
  checkAchievementsF fuel now s = Some s' -> saturated s'.
Proof.
  revert s s'. induction fuel as [| f IH]; intros s s'; [discriminate |].
  destruct (unlockPass_spec now s) as (new & s1 & E & _ & Hsat & _).
  rewrite checkAchievementsF_S, E.
  apply grantAll_saturated; [exact IH | exact Hsat].
Qed.

Lemma checkAchievements_saturated now s : saturated (checkAchievements now s).
Proof. eapply checkAchievementsF_saturated, checkAchievements_eq. Qed.

Lemma checkAchievements_fixed now s :
  saturated s -> checkAchievements now s = s.
Proof.
  intros Hs. unfold checkAchievements, maxDepth.
  destruct (unlockPass_spec now s) as (new & s1 & E & Hun & _ & Hnil).
  rewrite checkAchievementsF_S, E. rewrite (Hnil Hs) in *.
  inversion Hun; subst. reflexivity.
Qed.

(** ** The level follows the table *)

Lemma addXPK_levelInv k n s s' :
  (forall s s', levelInv s -> k s = Some s' -> levelInv s') ->
  0 <= n -> levelInv s -> addXPK k n s = Some s' -> levelInv s'.
Proof.
  intros Hk Hn [H0 Hl]. unfold addXPK, checkLevelUpK.
  destruct (Z.ltb_spec (level (gainXP n s)) (newLevelFor (totalXp (gainXP n s))))
    as [Hlt | Hge]; intros E.
  - eapply Hk; [| exact E]. split; simpl; [lia | reflexivity].
  - injection E as <-. simpl in Hge. split; simpl; [lia |].
    pose proof (newLevelFor_mono (totalXp s) (totalXp s + n)). lia.
Qed.

Lemma grantAll_levelInv k l :
  (forall s s', levelInv s -> k s = Some s' -> levelInv s') ->
  (forall a, a ∈ l -> a ∈ achievementsDef) ->
  forall s s', levelInv s -> grantAll k l s = Some s' -> levelInv s'.
Proof.
  intros Hk. induction l as [| a l IH]; intros Hl s s' Hs; simpl.
  - intros [= <-]. exact Hs.
  - destruct (addXPK k (ach_xp a) s) as [s1 |] eqn:E; [| discriminate].
    apply IH.
    + intros b Hb. apply Hl. right. exact Hb.
    + eapply addXPK_levelInv; [exact Hk | | exact Hs | exact E].
      apply ach_xp_nonneg, Hl. left.
Qed.

Lemma checkAchievementsF_levelInv fuel now s s' :
  levelInv s -> checkAchievementsF fuel now s = Some s' -> levelInv s'.
Proof.
  revert s s'. induction fuel as [| f IH]; intros s s' Hs; [discriminate |].
  destruct (unlockPass_spec now s) as (new & s1 & E & Hun & _).
  rewrite checkAchievementsF_S, E.
  apply grantAll_levelInv; [exact IH | |].
  - intros a. eapply unlocks_In; exact Hun.
  - apply unlocks_fields in Hun. rewrite Hun. exact Hs.
Qed.

Lemma checkAchievements_levelInv now s :
  levelInv s -> levelInv (checkAchievements now s).
Proof.
  intros Hs. eapply checkAchievementsF_levelInv; [exact Hs |].
  apply checkAchievements_eq.
Qed.

Lemma addXP_levelInv now n s :
  0 <= n -> levelInv s -> levelInv (addXP now n s).
Proof.
  intros Hn Hs. eapply addXPK_levelInv; [| exact Hn | exact Hs | apply addXP_eq].
  intros s0 s1. apply checkAchievementsF_levelInv.
Qed.

(** ** What the evaluation leaves alone *)

Lemma sameGame_refl s : sameGame s s.
Proof. unfold sameGame. split_and!; reflexivity. Qed.

Lemma sameGame_trans a b c : sameGame a b -> sameGame b c -> sameGame a c.
Proof. unfold sameGame. intros ? ?. destruct_and!. split_and!; congruence. Qed.

Ltac same_fields := intros; unfold sameGame; simpl; split_and!; reflexivity.

Lemma checkAchievements_sameGame now s : sameGame s (checkAchievements now s).
Proof.
  apply checkAchievements_preserved;
    [ apply sameGame_refl | apply sameGame_trans | same_fields .. ].
Qed.

Lemma addXP_sameGame now n s : sameGame s (addXP now n s).
Proof.
  apply addXP_preserved;
    [ apply sameGame_refl | apply sameGame_trans | same_fields .. ].
Qed.

Lemma checkAchievements_level_mono now s : level s <= level (checkAchievements now s).
Proof.
  apply (checkAchievements_preserved (fun a b => level a <= level b));
    intros; simpl; lia.
Qed.

Lemma addXP_level_mono now n s : level s <= level (addXP now n s).
Proof.
  apply (addXP_preserved (fun a b => level a <= level b)); intros; simpl; lia.
Qed.

Lemma checkAchievements_subseteq now s :
  achievements s ⊆ achievements (checkAchievements now s).
Proof.
  apply (checkAchievements_preserved
           (fun a b => achievements a ⊆ achievements b)).
  - reflexivity.
  - intros a b c ? ?. etrans; eassumption.
  - intros t a s0 _ Hu _. simpl. apply insert_subseteq, isUnlocked_false, Hu.
  - reflexivity.
  - reflexivity.
Qed.

(** ** Sums over the history *)

Lemma foldl_amount_init (l : list HistoryEntry) a :
  foldl (fun sum h => sum + amount h) a l = a + sumAmounts l.
Proof.
  revert a. induction l as [| h l IH]; intros a; simpl; [lia |].
  rewrite IH. lia.
Qed.

Lemma sumAmounts_app l1 l2 : sumAmounts (l1 ++ l2) = sumAmounts l1 + sumAmounts l2.
Proof. induction l1 as [| h l IH]; simpl; [reflexivity | rewrite IH; lia]. Qed.

Lemma waterXp_app l1 l2 : waterXp (l1 ++ l2) = waterXp l1 + waterXp l2.
Proof. induction l1 as [| h l IH]; simpl; [reflexivity | rewrite IH; lia]. Qed.

Lemma getIntakeForDate_sum d s :
  getIntakeForDate d s
  = sumAmounts (filter (fun h => toDateString (timestamp h) = d) (history s)).
Proof. unfold getIntakeForDate. rewrite foldl_amount_init. lia. Qed.

Lemma chartIntake_sum d s :
  chartIntake d s = sumAmounts (filter (fun h => date h = d) (history s)).
Proof. unfold chartIntake. rewrite foldl_amount_init. lia. Qed.

(** ** Logging water *)

Lemma handleGoalAchieved_fields now s :
  let s' := handleGoalAchieved now s in
  currentIntake s' = currentIntake s /\ dailyGoal s' = dailyGoal s /\
  streak s' = streak s + 1 /\ lastDrinkDate s' = lastDrinkDate s /\
  history s' = history s /\ settings s' = settings s /\
  stats s' = mkStats (totalDays (stats s) + 1) (totalWater (stats s))
                     (perfectDays (stats s) + 1)
                     (Z.max (bestStreak (stats s)) (streak s + 1))
                     (glassesCount (stats s)) /\
  totalXp s' - earned s' = totalXp s + 100 - earned s /\
  level s <= level s'.
Proof.
  unfold handleGoalAchieved.
  match goal with |- context [addXP now 100 ?x] => set (s3 := x) end.
  pose proof (addXP_sameGame now 100 s3) as (F1 & F2 & F3 & F4 & F5 & F6 & F7).
  pose proof (addXP_earned now 100 s3) as E.
  pose proof (addXP_level_mono now 100 s3) as L.
  cbv zeta. rewrite <- F1, <- F2, <- F3, <- F4, <- F5, <- F6, <- F7, E.
  clear F1 F2 F3 F4 F5 F6 F7 E.
  subst s3. simpl in *.
  destruct (Z.ltb_spec (bestStreak (stats s)) (streak s + 1)); simpl in *.
  all: split_and!; try reflexivity; try lia.
  all: unfold bumpPerfect, set_bestStreak; simpl; f_equal; lia.
Qed.

Lemma addWater_fields now amt s :
  let s' := addWater now amt s in
  let c := goalCrossed amt s in
  currentIntake s' = currentIntake s + amt /\ dailyGoal s' = dailyGoal s /\
  streak s' = streak s + (if c then 1 else 0) /\
  lastDrinkDate s' = Some (toDateString now) /\
  history s' = history s ++ [mkEntry amt now (toDateString now)] /\
  settings s' = settings s /\
  stats s' = mkStats (totalDays (stats s) + (if c then 1 else 0))
                     (totalWater (stats s) + amt)
                     (perfectDays (stats s) + (if c then 1 else 0))
                     (if c then Z.max (bestStreak (stats s)) (streak s + 1)
                      else bestStreak (stats s))
                     (glassesCount (stats s) + 1) /\
  totalXp s' - earned s' = totalXp s + amt / 25 + (if c then 100 else 0) - earned s /\
  level s <= level s'.
Proof.
  unfold addWater.
  match goal with |- context [addXP now (amt / 25) ?x] => set (s4 := x) end.
  pose proof (addXP_sameGame now (amt / 25) s4) as (F1 & F2 & F3 & F4 & F5 & F6 & F7).
  pose proof (addXP_earned now (amt / 25) s4) as E.
  pose proof (addXP_level_mono now (amt / 25) s4) as L.
  change (earned s4) with (earned s) in E.
  change (totalXp s4) with (totalXp s) in E.
  change (level s4) with (level s) in L.
  change (currentIntake s4) with (currentIntake s + amt) in F1.
  change (dailyGoal s4) with (dailyGoal s) in F2.
  change (streak s4) with (streak s) in F3.
  change (lastDrinkDate s4) with (Some (toDateString now)) in F4.
  change (history s4)
    with (history s ++ [mkEntry amt now (toDateString now)]) in F5.
  change (settings s4) with (settings s) in F6.
  change (stats s4) with (bumpGlasses amt (stats s)) in F7.
  generalize dependent (addXP now (amt / 25) s4). clear s4. intros s5.
  intros F1 F2 F3 F4 F5 F6 F7 E L.
  cbv zeta. rewrite <- F2, <- F1.
  change ((currentIntake s <? dailyGoal s) && (dailyGoal s <=? currentIntake s + amt))
    with (goalCrossed amt s).
  destruct (goalCrossed amt s).
  - pose proof (handleGoalAchieved_fields now s5)
      as (G1 & G2 & G3 & G4 & G5 & G6 & G7 & G8 & G9).
    cbv zeta in *.
    generalize dependent (handleGoalAchieved now s5). intros s6.
    intros G1 G2 G3 G4 G5 G6 G7 G8 G9.
    pose proof (checkAchievements_sameGame now s6) as (C1 & C2 & C3 & C4 & C5 & C6 & C7).
    pose proof (checkAchievements_earned now s6) as CE.
    pose proof (checkAchievements_level_mono now s6) as CL.
    rewrite <- C1, <- C2, <- C3, <- C4, <- C5, <- C6, <- C7.
    rewrite G1, G2, G3, G4, G5, G6, G7.
    rewrite <- F1, <- F3, <- F4, <- F5, <- F6, <- F7.
    split_and!; try reflexivity; try lia.
    all: unfold bumpGlasses; simpl; f_equal; lia.
  - pose proof (checkAchievements_sameGame now s5) as (C1 & C2 & C3 & C4 & C5 & C6 & C7).
    pose proof (checkAchievements_earned now s5) as CE.
    pose proof (checkAchievements_level_mono now s5) as CL.
    rewrite <- C1, <- C2, <- C3, <- C4, <- C5, <- C6, <- C7.
    rewrite <- F1, <- F2, <- F3, <- F4, <- F5, <- F6, <- F7.
    split_and!; try reflexivity; try lia.
    all: unfold bumpGlasses; simpl; f_equal; lia.
Qed.

(** C2 (as amended): [addWater] runs the goal handler exactly when the
    call takes the intake from below the goal to the goal or above;
    the streak, [perfectDays] and [totalDays] then grow by one and
    [bestStreak] becomes the larger of itself and the new streak, and
    they are untouched otherwise.  [totalXp] grows by
    [floor(amount/25)], by 100 more when the handler runs, and by the
    rewards of the achievements that the call unlocks; so logging 2000
    against a goal of 2000 from an intake of 0 runs the handler and
    adds 180 and those rewards. *)
Theorem addWater_goal_reached now amt s :
  let s' := addWater now amt s in
  let c := goalCrossed amt s in
  (c = true <->
   currentIntake s < dailyGoal s /\ dailyGoal s <= currentIntake s + amt) /\
  streak s' = streak s + (if c then 1 else 0) /\
  bestStreak (stats s') =
    (if c then Z.max (bestStreak (stats s)) (streak s') else bestStreak (stats s)) /\
  perfectDays (stats s') = perfectDays (stats s) + (if c then 1 else 0) /\
  totalDays (stats s') = totalDays (stats s) + (if c then 1 else 0) /\
  totalXp s' =
    totalXp s + amt / 25 + (if c then 100 else 0) + (earned s' - earned s) /\
  (amt = 2000 -> currentIntake s = 0 -> dailyGoal s = 2000 ->
   c = true /\
   totalXp s' = totalXp s + (2000 / 25 + 100) + (earned s' - earned s)).
Proof.
  pose proof (addWater_fields now amt s) as (_ & _ & F3 & _ & _ & _ & F7 & E & _).
  cbv zeta in *. generalize dependent (addWater now amt s). intros s' F3 F7 E.
  assert (Hc : goalCrossed amt s = true <->
               currentIntake s < dailyGoal s /\
               dailyGoal s <= currentIntake s + amt).
  { unfold goalCrossed. rewrite andb_true_iff, Z.ltb_lt, Z.leb_le. reflexivity. }
  split; [exact Hc |].
  assert (H2000 : amt = 2000 -> currentIntake s = 0 -> dailyGoal s = 2000 ->
                  goalCrossed amt s = true).
  { intros -> H0 Hg. apply Hc. lia. }
  rewrite F3, F7. simpl.
  destruct (goalCrossed amt s); split_and!; try reflexivity; try lia.
  all: intros Ha H0 Hg; specialize (H2000 Ha H0 Hg); try discriminate.
  subst amt. split; [reflexivity |]. change (2000 / 25) with 80 in *. lia.
Qed.

Lemma addWater_goal_reached_witness :
  goalCrossed 2000 initialState = true /\
  totalXp (addWater noon 2000 initialState)
  = totalXp initialState + (2000 / 25 + 100)
    + (earned (addWater noon 2000 initialState) - earned initialState).
Proof.
  pose proof (addWater_goal_reached noon 2000 initialState) as H.
  cbv zeta in H. destruct H as (_ & _ & _ & _ & _ & _ & H).
  exact (H eq_refl eq_refl eq_refl).
Defined.

(** C2, the scenario on a fresh state at noon: logging 2000 against a
    goal of 2000 adds 305 to [totalXp], not 180, because the same call
    unlocks three achievements worth 125. *)
Lemma addWater_2000_not_180 :
  currentIntake initialState = 0 /\ dailyGoal initialState = 2000 /\
  totalXp (addWater noon 2000 initialState) = totalXp initialState + 305 /\
  totalXp (addWater noon 2000 initialState)
    <> totalXp initialState + (2000 / 25 + 100).
Proof. vm_compute. split_and!; try reflexivity. discriminate. Qed.

(** When the call unlocks nothing, the scenario adds exactly 180. *)
Lemma addWater_2000_plain now s :
  currentIntake s = 0 -> dailyGoal s = 2000 ->
  achievements (addWater now 2000 s) = achievements s ->
  totalXp (addWater now 2000 s) = totalXp s + 180.
Proof.
  intros Hc Hg Ha.
  pose proof (addWater_fields now 2000 s) as (_ & _ & _ & _ & _ & _ & _ & E & _).
  cbv zeta in E. unfold goalCrossed in E. rewrite Hc, Hg in E.
  unfold earned in E. rewrite Ha in E.
  generalize dependent (addWater now 2000 s). intros s' _ E.
  change (2000 / 25) with 80 in E.
  change ((0 <? 2000) && (2000 <=? 0 + 2000)) with true in E.
  cbv iota in E. lia.
Qed.

(** ** Day rollover *)

Lemma checkNewDay_fields now s :
  let s' := checkNewDay now s in
  dailyGoal s' = dailyGoal s /\ xp s' = xp s /\ totalXp s' = totalXp s /\
  level s' = level s /\ lastDrinkDate s' = lastDrinkDate s /\
  history s' = history s /\ achievements s' = achievements s /\
  settings s' = settings s /\ stats s' = stats s /\
  (streak s' = streak s \/ streak s' = 0).
Proof.
  unfold checkNewDay. destruct (lastDrinkDate s) as [d |] eqn:E.
  - repeat case_bool_decide; try destruct (_ <? _); simpl; rewrite ?E;
      split_and!; auto.
  - rewrite E. split_and!; auto.
Qed.

(** C3: when [lastDrinkDate] is set and is not today, [checkNewDay]
    resets [currentIntake] to 0.  If the last day is yesterday, the
    streak becomes 0 exactly when yesterday's intake is below the goal
    and stays as it is otherwise; yesterday's intake is what
    [getIntakeForDate] computes from the history, the sum of the
    amounts of the entries whose instant falls on yesterday.  If the
    last day is two or more days back, the streak becomes 0. *)
Theorem checkNewDay_rollover now s lastDate :
  lastDrinkDate s = Some lastDate ->
  lastDate <> toDateString now ->
  let s' := checkNewDay now s in
  let yesterday := toDateString now - 1 in
  let yesterdayIntake :=
    sumAmounts (filter (fun h => toDateString (timestamp h) = yesterday)
                       (history s)) in
  getIntakeForDate yesterday s = yesterdayIntake /\
  currentIntake s' = 0 /\
  (lastDate = yesterday ->
   streak s' = if yesterdayIntake <? dailyGoal s then 0 else streak s) /\
  (2 <= toDateString now - lastDate -> streak s' = 0).
Proof.
  intros E Hne. cbv zeta. rewrite <- getIntakeForDate_sum.
  split; [reflexivity |].
  unfold checkNewDay. rewrite E.
  rewrite bool_decide_eq_true_2 by exact Hne. cbv zeta.
  case_bool_decide as Hy.
  - destruct (_ <? _) eqn:Hlt; simpl; split_and!; try reflexivity; intros; lia.
  - simpl. split_and!; [reflexivity | intros; contradiction | reflexivity].
Qed.

Lemma checkNewDay_rollover_witness :
  currentIntake (checkNewDay (msPerDay + noon) missedYesterday) = 0 /\
  streak (checkNewDay (msPerDay + noon) missedYesterday) = 0 /\
  currentIntake (checkNewDay (2 * msPerDay + noon) metYesterday) = 0 /\
  streak (checkNewDay (2 * msPerDay + noon) metYesterday) = 5 /\
  streak (checkNewDay (2 * msPerDay + noon) missedAfterGoodDay) = 0 /\
  streak (checkNewDay (3 * msPerDay + noon) metYesterday) = 0.
Proof.
  assert (H0 : 0 <> toDateString (msPerDay + noon)) by (vm_compute; discriminate).
  assert (H1 : 1 <> toDateString (2 * msPerDay + noon)) by (vm_compute; discriminate).
  assert (H2 : 1 <> toDateString (3 * msPerDay + noon)) by (vm_compute; discriminate).
  destruct (checkNewDay_rollover (msPerDay + noon) missedYesterday 0 eq_refl H0)
    as (_ & Ha & Hb & _).
  destruct (checkNewDay_rollover (2 * msPerDay + noon) metYesterday 1 eq_refl H1)
    as (_ & Hc & Hd & _).
  destruct (checkNewDay_rollover (2 * msPerDay + noon) missedAfterGoodDay 1
              eq_refl H1) as (_ & _ & He & _).
  destruct (checkNewDay_rollover (3 * msPerDay + noon) metYesterday 1 eq_refl H2)
    as (_ & _ & _ & Hf).
  split_and!.
  - exact Ha.
  - rewrite Hb; reflexivity.
  - exact Hc.
  - rewrite Hd; reflexivity.
  - rewrite He; reflexivity.
  - apply Hf. vm_compute. discriminate.
Defined.

(** C6: [checkNewDay] changes no field other than [streak] and
    [currentIntake]; in particular [stats] (with [bestStreak]),
    [history] and [achievements] are the same before and after. *)
Theorem checkNewDay_frame now s :
  let s' := checkNewDay now s in
  bestStreak (stats s') = bestStreak (stats s) /\
  history s' = history s /\
  achievements s' = achievements s /\
  stats s' = stats s /\
  dailyGoal s' = dailyGoal s /\ xp s' = xp s /\ totalXp s' = totalXp s /\
  level s' = level s /\ lastDrinkDate s' = lastDrinkDate s /\
  settings s' = settings s.
Proof.
  pose proof (checkNewDay_fields now s) as (F1 & F2 & F3 & F4 & F5 & F6 & F7 & F8 & F9 & _).
  cbv zeta in *. rewrite F9. split_and!; auto.
Qed.

(** ** Achievements *)

(** C5: after one evaluation pass a second pass, at any later instant,
    finds no achievement to unlock and gives back the same state, so
    the achievements map and [totalXp] are unchanged. *)
Theorem checkAchievements_idempotent now now' s :
  let s1 := checkAchievements now s in
  let s2 := checkAchievements now' s1 in
  (unlockPass now' s1).2 = [] /\
  achievements s2 = achievements s1 /\
  totalXp s2 = totalXp s1 /\
  s2 = s1.
Proof.
  cbv zeta.
  pose proof (checkAchievements_saturated now s) as Hs.
  rewrite (checkAchievements_fixed now' _ Hs).
  generalize dependent (checkAchievements now s). intros s1 Hs.
  destruct (unlockPass_spec now' s1) as (new & s1' & E & _ & _ & Hnil).
  rewrite E. cbn [snd]. split_and!; auto.
Qed.

(** ** Settings *)

(** C8 (as amended): [saveSettings] stores a goal that lies in
    500..5000 (where clamping changes nothing) and otherwise, also for
    an entry that is not a number, leaves [dailyGoal] as it was; a goal
    that is in range stays in range. *)
Theorem saveSettings_dailyGoal newGoal snd ntf s :
  let s' := saveSettings newGoal snd ntf s in
  (forall g, newGoal = Some g -> 500 <= g <= 5000 ->
             dailyGoal s' = g /\ g = clamp 500 5000 g) /\
  (forall g, newGoal = Some g -> g < 500 \/ 5000 < g ->
             dailyGoal s' = dailyGoal s) /\
  (newGoal = None -> dailyGoal s' = dailyGoal s) /\
  (500 <= dailyGoal s <= 5000 -> 500 <= dailyGoal s' <= 5000).
Proof.
  unfold saveSettings, clamp. destruct newGoal as [g |]; simpl.
  - destruct (Z.leb_spec 500 g), (Z.leb_spec g 5000); simpl;
      (split_and!; [ intros ? [= <-] ? | intros ? [= <-] ? | discriminate | intros ? ];
       try split; simpl; lia).
  - split_and!; try discriminate; auto.
Qed.

Lemma saveSettings_dailyGoal_witness :
  dailyGoal (saveSettings (Some 3000) true false initialState) = 3000 /\
  dailyGoal (saveSettings (Some 6000) true false initialState) = 2000 /\
  dailyGoal (saveSettings (Some 100) true false initialState) = 2000 /\
  dailyGoal (saveSettings None true false initialState) = 2000.
Proof.
  destruct (saveSettings_dailyGoal (Some 3000) true false initialState)
    as (Hin & _).
  destruct (saveSettings_dailyGoal (Some 6000) true false initialState)
    as (_ & Hout & _).
  destruct (saveSettings_dailyGoal (Some 100) true false initialState)
    as (_ & Hlow & _).
  destruct (saveSettings_dailyGoal None true false initialState)
    as (_ & _ & Hnan & _).
  split_and!.
  - apply (Hin 3000 eq_refl). lia.
  - rewrite (Hout 6000 eq_refl); [reflexivity | lia].
  - rewrite (Hlow 100 eq_refl); [reflexivity | lia].
  - rewrite (Hnan eq_refl). reflexivity.
Defined.

(** C8, out-of-range entries: 6000 is not clamped to 5000 and 100 is
    not clamped to 500; the goal stays 2000. *)
Lemma saveSettings_does_not_clamp :
  dailyGoal (saveSettings (Some 6000) true false initialState)
    <> clamp 500 5000 6000 /\
  dailyGoal (saveSettings (Some 100) true false initialState)
    <> clamp 500 5000 100.
Proof. vm_compute. split; discriminate. Qed.

(** ** Invariants of the running application *)

Lemma runOps_cons o ops s : runOps (o :: ops) s = runOps ops (applyOp s o).
Proof. reflexivity. Qed.

Lemma runOps_app ops1 ops2 s :
  runOps (ops1 ++ ops2) s = runOps ops2 (runOps ops1 s).
Proof. unfold runOps. apply foldl_app. Qed.

Lemma runOps_invariant (P : State -> Prop) (Q : Op -> Prop) :
  (forall s o, Q o -> P s -> P (applyOp s o)) ->
  forall ops s, Forall Q ops -> P s -> P (runOps ops s).
Proof.
  intros Hstep. induction ops as [| o ops IH]; intros s Hq Hp; [exact Hp |].
  apply Forall_cons in Hq as [Ho Hq]. rewrite runOps_cons.
  apply IH; [exact Hq |]. apply Hstep; assumption.
Qed.

Lemma handleGoalAchieved_streak now s :
  streak (handleGoalAchieved now s)
  <= bestStreak (stats (handleGoalAchieved now s)).
Proof.
  pose proof (handleGoalAchieved_fields now s) as (_ & _ & F3 & _ & _ & _ & F7 & _).
  cbv zeta in *. rewrite F3, F7. simpl. lia.
Qed.

Lemma applyOp_streakInv s o : streakInv s -> streakInv (applyOp s o).
Proof.
  unfold streakInv. intros [H0 H1]. destruct o as [now amt | now | g a b | i a b |]; cbn [applyOp].
  - pose proof (addWater_fields now amt s) as (_ & _ & F3 & _ & _ & _ & F7 & _).
    cbv zeta in *. rewrite F3, F7. simpl. destruct (goalCrossed amt s); lia.
  - pose proof (checkNewDay_fields now s) as (_ & _ & _ & _ & _ & _ & _ & _ & F9 & F10).
    cbv zeta in *. rewrite F9. lia.
  - unfold saveSettings. destruct g as [g |]; [destruct (_ && _) |]; simpl; lia.
  - simpl; lia.
  - simpl; lia.
Qed.

Lemma applyOp_days s o :
  totalDays (stats s) = perfectDays (stats s) ->
  totalDays (stats (applyOp s o)) = perfectDays (stats (applyOp s o)).
Proof.
  intros H. destruct o as [now amt | now | g a b | i a b |]; cbn [applyOp].
  - pose proof (addWater_fields now amt s) as (_ & _ & _ & _ & _ & _ & F7 & _).
    cbv zeta in *. rewrite F7. simpl. lia.
  - pose proof (checkNewDay_fields now s) as (_ & _ & _ & _ & _ & _ & _ & _ & F9 & _).
    cbv zeta in *. rewrite F9. exact H.
  - unfold saveSettings. destruct g as [g |]; [destruct (_ && _) |]; exact H.
  - exact H.
  - exact H.
Qed.

Lemma levelInv_frame s s' :
  totalXp s = totalXp s' -> level s = level s' -> levelInv s -> levelInv s'.
Proof. unfold levelInv. intros <- <-. trivial. Qed.

Lemma handleGoalAchieved_levelInv now s :
  levelInv s -> levelInv (handleGoalAchieved now s).
Proof.
  intros Hs. unfold handleGoalAchieved. apply addXP_levelInv; [lia |].
  eapply levelInv_frame; [| | exact Hs]; destruct (_ <? _); reflexivity.
Qed.

Lemma addWater_levelInv now amt s :
  0 < amt -> levelInv s -> levelInv (addWater now amt s).
Proof.
  intros Ha Hs. unfold addWater. cbv zeta.
  apply checkAchievements_levelInv.
  match goal with
  | |- context [addXP now (amt / 25) ?x] =>
      assert (H5 : levelInv (addXP now (amt / 25) x))
  end.
  { apply addXP_levelInv; [apply Z.div_pos; lia |].
    eapply levelInv_frame; [| | exact Hs]; reflexivity. }
  destruct (_ && _); [apply handleGoalAchieved_levelInv |]; exact H5.
Qed.

Lemma applyOp_levelInv s o : validOp o -> levelInv s -> levelInv (applyOp s o).
Proof.
  destruct o as [now amt | now | g a b | i a b |]; cbn [applyOp validOp]; intros Hv Hs.
  - apply addWater_levelInv; assumption.
  - pose proof (checkNewDay_fields now s) as (_ & _ & F3 & F4 & _).
    cbv zeta in *. unfold levelInv. rewrite F3, F4. exact Hs.
  - unfold saveSettings. destruct g as [g |]; [destruct (_ && _) |]; exact Hs.
  - exact Hs.
  - exact Hs.
Qed.

Lemma applyOp_level_mono s o : level s <= level (applyOp s o).
Proof.
  destruct o as [now amt | now | g a b | i a b |]; cbn [applyOp].
  - apply addWater_fields.
  - pose proof (checkNewDay_fields now s) as (_ & _ & _ & F4 & _).
    cbv zeta in *. lia.
  - unfold saveSettings. destruct g as [g |]; [destruct (_ && _) |]; simpl; lia.
  - simpl; lia.
  - simpl; lia.
Qed.

Lemma runOps_level_mono ops s : level s <= level (runOps ops s).
Proof.
  revert s. induction ops as [| o ops IH]; intros s; [cbn; lia |].
  rewrite runOps_cons. pose proof (applyOp_level_mono s o).
  specialize (IH (applyOp s o)). lia.
Qed.

(** C9: in every state that a sequence of operations (logging water,
    with the goal handler it may run, day rollovers, settings) reaches
    from the initial state, [bestStreak >= streak]; and the goal
    handler on its own leaves [bestStreak >= streak] from any state. *)
Theorem bestStreak_ge_streak ops :
  let s := runOps ops initialState in
  streak s <= bestStreak (stats s) /\
  (forall now, streak (handleGoalAchieved now s)
               <= bestStreak (stats (handleGoalAchieved now s))).
Proof.
  cbv zeta. split.
  - apply (runOps_invariant streakInv (fun _ => True)).
    + intros s o _. apply applyOp_streakInv.
    + apply Forall_forall. trivial.
    + split; simpl; lia.
  - intros now. apply handleGoalAchieved_streak.
Qed.

(** C10: in every state that a sequence of operations reaches from the
    initial state, [totalDays = perfectDays]: both counters start at 0
    and only the goal handler raises them, together. *)
Theorem totalDays_eq_perfectDays ops :
  let s := runOps ops initialState in
  totalDays (stats s) = perfectDays (stats s).
Proof.
  cbv zeta.
  apply (runOps_invariant
           (fun s => totalDays (stats s) = perfectDays (stats s))
           (fun _ => True)).
  - intros s o _. apply applyOp_days.
  - apply Forall_forall. trivial.
  - reflexivity.
Qed.

(** C4 (as amended): in every state reached from the initial state by
    the operations of the running application ([addWater] with a
    positive amount, [checkNewDay], [saveSettings], the reminder
    settings), [level] is the level of the largest table entry whose
    [xpRequired] is at most [totalXp]; and no sequence of these
    operations, from any state, lowers the level. *)
Theorem level_follows_table ops1 ops2 :
  Forall validOp ops1 -> Forall validOp ops2 ->
  let s1 := runOps ops1 initialState in
  let s2 := runOps ops2 s1 in
  isLargestEntry (level s1) (totalXp s1) /\
  isLargestEntry (level s2) (totalXp s2) /\
  level s1 <= level s2 /\
  (forall s ops, level s <= level (runOps ops s)).
Proof.
  intros H1 H2. cbv zeta.
  assert (I1 : levelInv (runOps ops1 initialState)).
  { apply (runOps_invariant levelInv validOp);
      [intros s o; apply applyOp_levelInv | exact H1 |].
    split; [simpl; lia | reflexivity]. }
  assert (I2 : levelInv (runOps ops2 (runOps ops1 initialState))).
  { apply (runOps_invariant levelInv validOp);
      [intros s o; apply applyOp_levelInv | exact H2 | exact I1]. }
  destruct I1 as [P1 E1], I2 as [P2 E2].
  split_and!.
  - rewrite E1. apply newLevelFor_largest, P1.
  - rewrite E2. apply newLevelFor_largest, P2.
  - apply runOps_level_mono.
  - intros s ops. apply runOps_level_mono.
Qed.

Lemma level_follows_table_witness :
  Forall validOp twoDays /\ Forall validOp nextDay /\
  isLargestEntry (level (runOps twoDays initialState))
                 (totalXp (runOps twoDays initialState)) /\
  level (runOps twoDays initialState)
  <= level (runOps nextDay (runOps twoDays initialState)).
Proof.
  assert (H1 : Forall validOp twoDays).
  { unfold twoDays. repeat constructor. }
  assert (H2 : Forall validOp nextDay).
  { unfold nextDay. repeat constructor. }
  destruct (level_follows_table twoDays nextDay H1 H2) as (Ha & _ & Hc & _).
  split_and!; [exact H1 | exact H2 | exact Ha | exact Hc].
Defined.

(** ** Cloud synchronisation *)

Ltac run_js :=
  cbv beta iota zeta delta
    [loadFromCloud saveToCloud deleteFromCloud updateDisplay tryCatch bind
     getToken getCurrentUser fetch resJson ret throw getState putState
     setAuthenticated saveStateLocal signIn addRequests].

Lemma addRequests_nil w : addRequests [] w = w.
Proof. destruct w. unfold addRequests. simpl. rewrite app_nil_r. reflexivity. Qed.

(** [loadFromCloud] always returns; its value does not depend on the
    world it starts in, and it only issues [GET] requests. *)
Lemma loadFromCloud_run env w :
  exists v rs,
    loadFromCloud env w = (Ok v, addRequests rs w) /\
    Forall (fun r => method r = GET) rs /\
    forall w2, (loadFromCloud env w2).1 = Ok v.
Proof.
  run_js.
  destruct (env_currentUser env AtLoad) as [[u |] | e]; simpl.
  - case_bool_decide as Ht.
    + exists None, []. rewrite app_nil_r. destruct w.
      split_and!; [reflexivity | constructor | reflexivity].
    + destruct (env_fetch env (mkRequest GET (token u) None)) as [res | e]; simpl.
      * destruct (status res =? 404); simpl;
          [| destruct (ok res); simpl; [destruct (json res) as [v | e] |] ];
          eexists _, [_]; (split_and!; [reflexivity | repeat constructor | reflexivity]).
      * eexists _, [_]; (split_and!; [reflexivity | repeat constructor | reflexivity]).
  - exists None, []. rewrite app_nil_r. destruct w.
    split_and!; [reflexivity | constructor | reflexivity].
  - exists None, []. rewrite app_nil_r. destruct w.
    split_and!; [reflexivity | constructor | reflexivity].
Qed.

(** [saveToCloud] always returns; it issues nothing but [PUT]s of the
    given state, and exactly one with a token that is not empty. *)
Lemma saveToCloud_run s env w :
  exists b rs,
    saveToCloud s env w = (Ok b, addRequests rs w) /\
    Forall (fun r => method r = PUT /\ body r = Some s) rs /\
    (forall u, env_currentUser env AtSave = Ok (Some u) ->
               token u <> EmptyString ->
               rs = [mkRequest PUT (token u) (Some s)]).
Proof.
  run_js.
  destruct (env_currentUser env AtSave) as [[u |] | e]; simpl.
  - case_bool_decide as Ht.
    + exists false, []. rewrite app_nil_r. destruct w.
      split_and!; [reflexivity | constructor |].
      intros ? [= <-] Hne. contradiction.
    + destruct (env_fetch env (mkRequest PUT (token u) (Some s))) as [res | e];
        simpl; eexists _, [_];
        (split_and!; [reflexivity | repeat constructor
                     | intros ? [= <-] _; reflexivity]).
  - exists false, []. rewrite app_nil_r. destruct w.
    split_and!; [reflexivity | constructor | discriminate].
  - exists false, []. rewrite app_nil_r. destruct w.
    split_and!; [reflexivity | constructor | discriminate].
Qed.

(** The render throws exactly for a state of level 0. *)
Lemma getXPForCurrentLevel_throws s :
  (exists e, getXPForCurrentLevel s = Throw e) <-> level s = 0.
Proof.
  unfold getXPForCurrentLevel. split.
  - intros [e He].
    destruct (findLevel (level s + 1)) as [next |] eqn:E2; [| discriminate].
    destruct (findLevel (level s)) as [cur |] eqn:E1; [discriminate |].
    destruct (decide (1 <= level s <= 10)) as [Hin | Hout].
    + destruct (findLevel_inside _ Hin) as (l & El & _). congruence.
    + destruct (decide (level s = 0)) as [E0 | Hne]; [exact E0 |].
      rewrite findLevel_outside in E2 by lia. discriminate.
  - intros ->. exists "TypeError". reflexivity.
Qed.

Lemma updateDisplay_run env w :
  updateDisplay env w =
  (if bool_decide (level (w_state w) = 0) then Throw "TypeError" else Ok tt, w).
Proof.
  run_js. case_bool_decide as Hl.
  - unfold getXPForCurrentLevel. rewrite Hl. reflexivity.
  - destruct (getXPForCurrentLevel (w_state w)) as [bar | e] eqn:E; [reflexivity |].
    exfalso. apply Hl, getXPForCurrentLevel_throws. eauto.
Qed.

(** The render in the middle of [addWater] comes after [addXP], which
    leaves a level of at least 1: it does not throw, and [addWater]
    always runs to its end. *)
Lemma addXP_renders now n s :
  1 <= level (addXP now n s) /\
  exists bar, getXPForCurrentLevel (addXP now n s) = Ok bar.
Proof.
  assert (H : 1 <= level (addXP now n s)).
  { pose proof (addXP_eq now n s) as E. unfold addXPK, checkLevelUpK in E.
    pose proof (newLevelFor_range (totalXp (gainXP n s))) as Hr.
    destruct (Z.ltb_spec (level (gainXP n s)) (newLevelFor (totalXp (gainXP n s))))
      as [Hlt | Hge].
    - destruct (checkAchievementsF_total maxDepth now
                  (set_level (newLevelFor (totalXp (gainXP n s))) (gainXP n s))
                  (rank_maxDepth _)) as (s' & E' & Hl).
      rewrite E' in E. injection E as <-. cbn [level set_level] in Hl. lia.
    - injection E as <-. lia. }
  split; [exact H |].
  destruct (getXPForCurrentLevel (addXP now n s)) as [bar | e] eqn:E; [eauto |].
  assert (H0 : level (addXP now n s) = 0)
    by (apply getXPForCurrentLevel_throws; eauto).
  lia.
Qed.

Lemma spread_toDoc s r : spread s (toDoc r) = r.
Proof. destruct r; reflexivity. Qed.

Lemma cloudWins_spec s d :
  cloudWins s d = true <->
  totalXp s < default 0 (d_totalXp d) \/
  totalWater (stats s) < default 0 (totalWater <$> d_stats d).
Proof. unfold cloudWins. rewrite orb_true_iff, !Z.ltb_lt. reflexivity. Qed.

(** C7: the three cloud operations always return to their caller and
    never throw.  [loadFromCloud] returns [null] when there is no
    token, when the server answers 404, and on every failure (Cognito
    throws, [fetch] throws, the answer is not [ok], the body is not
    JSON); [saveToCloud] and [deleteFromCloud] return [false] when
    there is no token and on every failure. *)
Theorem cloud_operations_never_throw env w s :
  (exists v, (loadFromCloud env w).1 = Ok v) /\
  (env_currentUser env AtLoad = Ok None -> (loadFromCloud env w).1 = Ok None) /\
  (forall u res,
     env_currentUser env AtLoad = Ok (Some u) ->
     env_fetch env (mkRequest GET (token u) None) = Ok res ->
     status res = 404 \/ ok res = false \/ (exists e, json res = Throw e) ->
     (loadFromCloud env w).1 = Ok None) /\
  (forall u e,
     env_currentUser env AtLoad = Throw e \/
     (env_currentUser env AtLoad = Ok (Some u) /\
      env_fetch env (mkRequest GET (token u) None) = Throw e) ->
     (loadFromCloud env w).1 = Ok None) /\
  (exists b, (saveToCloud s env w).1 = Ok b) /\
  (forall u e,
     env_currentUser env AtSave = Ok None \/
     env_currentUser env AtSave = Throw e \/
     (env_currentUser env AtSave = Ok (Some u) /\
      (env_fetch env (mkRequest PUT (token u) (Some s)) = Throw e \/
       exists res, env_fetch env (mkRequest PUT (token u) (Some s)) = Ok res /\
                   ok res = false)) ->
     (saveToCloud s env w).1 = Ok false) /\
  (exists b, (deleteFromCloud env w).1 = Ok b) /\
  (forall u e,
     env_currentUser env AtDelete = Ok None \/
     env_currentUser env AtDelete = Throw e \/
     (env_currentUser env AtDelete = Ok (Some u) /\
      (env_fetch env (mkRequest DELETE (token u) None) = Throw e \/
       exists res, env_fetch env (mkRequest DELETE (token u) None) = Ok res /\
                   ok res = false)) ->
     (deleteFromCloud env w).1 = Ok false).
Proof.
  split_and!.
  - destruct (loadFromCloud_run env w) as (v & rs & E & _). exists v.
    rewrite E. reflexivity.
  - intros E. run_js. rewrite E. reflexivity.
  - intros u res E1 E2 H. run_js. rewrite E1. simpl.
    case_bool_decide; [reflexivity |]. rewrite E2. simpl.
    destruct H as [-> | [H | [e H]]]; [reflexivity | |].
    + rewrite H. destruct (status res =? 404); reflexivity.
    + rewrite H. destruct (status res =? 404), (ok res); reflexivity.
  - intros u e [E | [E1 E2]]; run_js.
    + rewrite E. reflexivity.
    + rewrite E1. simpl. case_bool_decide; [reflexivity |].
      rewrite E2. reflexivity.
  - destruct (saveToCloud_run s env w) as (b & rs & E & _). exists b.
    rewrite E. reflexivity.
  - intros u e [E | [E | [E1 [E2 | (res & E2 & H)]]]]; run_js.
    + rewrite E. reflexivity.
    + rewrite E. reflexivity.
    + rewrite E1. simpl. case_bool_decide; [reflexivity |].
      rewrite E2. reflexivity.
    + rewrite E1. simpl. case_bool_decide; [reflexivity |].
      rewrite E2. simpl. rewrite H. reflexivity.
  - run_js. destruct (env_currentUser env AtDelete) as [[u |] | e]; simpl;
      [| eexists; reflexivity ..].
    case_bool_decide; [eexists; reflexivity |].
    destruct (env_fetch env (mkRequest DELETE (token u) None)); simpl;
      eexists; reflexivity.
  - intros u e [E | [E | [E1 [E2 | (res & E2 & H)]]]]; run_js.
    + rewrite E. reflexivity.
    + rewrite E. reflexivity.
    + rewrite E1. simpl. case_bool_decide; [reflexivity |].
      rewrite E2. reflexivity.
    + rewrite E1. simpl. case_bool_decide; [reflexivity |].
      rewrite E2. simpl. rewrite H. reflexivity.
Qed.

Lemma cloud_operations_never_throw_witness :
  (loadFromCloud signedOutEnv (startWorld initialState)).1 = Ok None /\
  (saveToCloud initialState signedOutEnv (startWorld initialState)).1 = Ok false /\
  (deleteFromCloud signedOutEnv (startWorld initialState)).1 = Ok false.
Proof.
  destruct (cloud_operations_never_throw signedOutEnv (startWorld initialState)
              initialState) as (_ & Hl & _ & _ & _ & Hs & _ & Hd).
  split_and!.
  - apply Hl. reflexivity.
  - apply (Hs alice EmptyString). left. reflexivity.
  - apply (Hd alice EmptyString). left. reflexivity.
Defined.

(** ** The two sign-in paths *)

Ltac run_handler :=
  cbv beta iota zeta delta
    [tryCatch bind ret getState putState setAuthenticated saveStateLocal
     signIn getCurrentUser].

Lemma merged_cases s v :
  merged s v = s \/
  exists d, v = Some d /\ cloudWins s d = true /\ merged s v = spread s d.
Proof.
  destruct v as [d |]; [| left; reflexivity]. simpl.
  destruct (cloudWins s d) eqn:E; [right; eauto | left; reflexivity].
Qed.

(** What [handleSignIn] does, in every environment: nothing when a
    field is empty or the sign-in is rejected; otherwise it adopts the
    document if it wins and, unless the render of the adopted state
    throws, uploads the resulting state and saves it locally. *)
Lemma handleSignIn_cases env w em pw :
  (handleSignIn em pw env w = (Ok tt, w) /\
   (em = EmptyString \/ pw = EmptyString \/
    exists e, env_signIn env em pw = Throw e)) \/
  exists u v rs1,
    em <> EmptyString /\ pw <> EmptyString /\
    env_signIn env em pw = Ok u /\
    (forall w2, (loadFromCloud env w2).1 = Ok v) /\
    Forall (fun r => method r = GET) rs1 /\
    ((renderThrows (w_state w) v = true /\
      handleSignIn em pw env w =
        (Ok tt, mkWorld (merged (w_state w) v) true (Some (email u))
                        (localStorage w) (requests w ++ rs1))) \/
     (renderThrows (w_state w) v = false /\
      exists rs2,
        Forall (fun r => method r = PUT /\ body r = Some (merged (w_state w) v)) rs2 /\
        (forall u2, env_currentUser env AtSave = Ok (Some u2) ->
                    token u2 <> EmptyString ->
                    rs2 = [mkRequest PUT (token u2) (Some (merged (w_state w) v))]) /\
        handleSignIn em pw env w =
          (Ok tt, mkWorld (merged (w_state w) v) true (Some (email u))
                          (Some (merged (w_state w) v))
                          ((requests w ++ rs1) ++ rs2)))).
Proof.
  unfold handleSignIn.
  case_bool_decide as Hem; [left; split; [reflexivity | tauto] |].
  case_bool_decide as Hpw; [left; split; [reflexivity | tauto] |].
  cbn [orb]. run_handler.
  destruct (env_signIn env em pw) as [u | e] eqn:Hin;
    [| left; split; [reflexivity | eauto] ].
  right.
  match goal with
  | |- context [loadFromCloud env ?w1] =>
      destruct (loadFromCloud_run env w1) as (v & rs1 & E & Hget & Hv)
  end.
  rewrite E. unfold addRequests; simpl.
  exists u, v, rs1. split_and!; auto.
  assert (Hsave : forall win w2, exists rs2,
            Forall (fun r => method r = PUT /\ body r = Some win) rs2 /\
            (forall u2, env_currentUser env AtSave = Ok (Some u2) ->
                        token u2 <> EmptyString ->
                        rs2 = [mkRequest PUT (token u2) (Some win)]) /\
            (let (e0, w') := saveToCloud win env w2 in
             match e0 with
             | Ok _ => (Ok tt, mkWorld (w_state w') (isAuthenticated w')
                                       (userEmail w') (Some (w_state w'))
                                       (requests w'))
             | Throw e1 => (Throw e1, w')
             end)
            = (Ok tt, mkWorld (w_state w2) (isAuthenticated w2) (userEmail w2)
                              (Some (w_state w2)) (requests w2 ++ rs2))).
  { intros win w2.
    destruct (saveToCloud_run win env w2) as (b & rs2 & E2 & Hb & Hput).
    exists rs2. rewrite E2. split_and!; [exact Hb | exact Hput | reflexivity]. }
  destruct v as [d |]; [destruct (cloudWins (w_state w) d) eqn:C |];
    cbv beta iota; simpl; rewrite ?C.
  - rewrite updateDisplay_run. simpl.
    case_bool_decide as Hl; simpl.
    + left. split; reflexivity.
    + right. split; [reflexivity |].
      match goal with
      | |- context [saveToCloud ?win env ?w2] =>
          destruct (Hsave win w2) as (rs2 & Hb & Hput & E2)
      end.
      exists rs2. rewrite E2. split_and!; auto.
  - right. split; [reflexivity |].
    match goal with
    | |- context [saveToCloud ?win env ?w2] =>
        destruct (Hsave win w2) as (rs2 & Hb & Hput & E2)
    end.
    exists rs2. rewrite E2. split_and!; auto.
  - right. split; [reflexivity |].
    match goal with
    | |- context [saveToCloud ?win env ?w2] =>
        destruct (Hsave win w2) as (rs2 & Hb & Hput & E2)
    end.
    exists rs2. rewrite E2. split_and!; auto.
Qed.

(** What [checkExistingSession] does, in every environment; a throw of
    the render comes after the local save and changes nothing. *)
Lemma checkExistingSession_cases env w :
  (checkExistingSession env w = (Ok tt, w) /\
   (env_currentUser env AtSession = Ok None \/
    exists e, env_currentUser env AtSession = Throw e)) \/
  exists u v rs1,
    env_currentUser env AtSession = Ok (Some u) /\
    (forall w2, (loadFromCloud env w2).1 = Ok v) /\
    Forall (fun r => method r = GET) rs1 /\
    checkExistingSession env w =
      (Ok tt,
       mkWorld (merged (w_state w) v) true (Some (email u))
               (match v with
                | Some d => if cloudWins (w_state w) d
                            then Some (merged (w_state w) v)
                            else localStorage w
                | None => localStorage w
                end)
               (requests w ++ rs1)).
Proof.
  unfold checkExistingSession. run_handler.
  destruct (env_currentUser env AtSession) as [[u |] | e] eqn:Hu;
    [| left; split; [reflexivity | tauto]
     | left; split; [reflexivity | eauto] ].
  right.
  match goal with
  | |- context [loadFromCloud env ?w1] =>
      destruct (loadFromCloud_run env w1) as (v & rs1 & E & Hget & Hv)
  end.
  rewrite E. unfold addRequests; simpl.
  exists u, v, rs1. split_and!; auto.
  destruct v as [d |]; simpl; [destruct (cloudWins (w_state w) d) |];
    try reflexivity.
  rewrite updateDisplay_run. simpl. case_bool_decide; reflexivity.
Qed.

(** C1 (as amended): when [loadFromCloud] brings back a document, both
    paths keep the local state unless the document has more [totalXp]
    or more [stats.totalWater] (a missing value counting as 0), and
    otherwise spread the document over it, which for a complete
    document is that document's state.  [handleSignIn] then, when the
    local state was kept or the adopted state has a level other than
    0, writes the resulting state to local storage and, when
    [getToken] yields a token that is not empty, sends it with [PUT].
    [checkExistingSession] writes it to local storage only when the
    document won and sends nothing but the [GET]. *)
Theorem merge_on_sign_in env w d :
  (loadFromCloud env w).1 = Ok (Some d) ->
  let loc := w_state w in
  let winner := if cloudWins loc d then spread loc d else loc in
  (cloudWins loc d = true <->
   totalXp loc < default 0 (d_totalXp d) \/
   totalWater (stats loc) < default 0 (totalWater <$> d_stats d)) /\
  (forall r, d = toDoc r -> cloudWins loc d = true -> winner = r) /\
  (cloudWins loc d = false -> winner = loc) /\
  (forall em pw u,
     em <> EmptyString -> pw <> EmptyString -> env_signIn env em pw = Ok u ->
     let w' := (handleSignIn em pw env w).2 in
     w_state w' = winner /\
     (cloudWins loc d = false \/ level winner <> 0 ->
      localStorage w' = Some winner /\
      (forall u2, env_currentUser env AtSave = Ok (Some u2) ->
                  token u2 <> EmptyString ->
                  mkRequest PUT (token u2) (Some winner) ∈ requests w'))) /\
  (forall u,
     env_currentUser env AtSession = Ok (Some u) ->
     let w' := (checkExistingSession env w).2 in
     w_state w' = winner /\
     localStorage w' = (if cloudWins loc d then Some winner else localStorage w) /\
     (forall r, r ∈ requests w' -> r ∈ requests w \/ method r = GET)).
Proof.
  intros Hload. cbv zeta.
  assert (Hm : forall v, (forall w2, (loadFromCloud env w2).1 = Ok v) ->
                         v = Some d).
  { intros v Hv. rewrite (Hv w) in Hload. congruence. }
  split_and!.
  - apply cloudWins_spec.
  - intros r -> ->. apply spread_toDoc.
  - intros ->. reflexivity.
  - intros em pw u Hem Hpw Hin.
    destruct (handleSignIn_cases env w em pw)
      as [[_ [H | [H | [e H]]]] | (u' & v & rs1 & _ & _ & _ & Hv & _ & Hcase)];
      [congruence .. |].
    rewrite (Hm v Hv) in Hcase. cbn [merged renderThrows] in Hcase.
    destruct Hcase as [[Ht E] | (Ht & rs2 & _ & Hput & E)]; rewrite E; cbn [snd w_state localStorage requests].
    + split; [reflexivity |]. intros Hok. exfalso.
      apply andb_true_iff in Ht as [Hc Hl]. apply bool_decide_eq_true in Hl.
      rewrite Hc in Hok. destruct Hok as [Hok | Hok]; [discriminate | exact (Hok Hl)].
    + split; [reflexivity |]. intros _. split; [reflexivity |].
      intros u2 Hu2 Hne. rewrite (Hput u2 Hu2 Hne).
      apply elem_of_app. right. apply list_elem_of_singleton. reflexivity.
  - intros u Hu.
    destruct (checkExistingSession_cases env w)
      as [[_ [H | [e H]]] | (u' & v & rs1 & _ & Hv & Hget & E)];
      [congruence .. |].
    rewrite (Hm v Hv) in E. cbn [merged] in E. rewrite E.
    cbn [snd w_state localStorage requests].
    split_and!; [reflexivity | reflexivity |].
    intros r Hr. apply elem_of_app in Hr as [Hr | Hr]; [left; exact Hr | right].
    exact (proj1 (Forall_forall _ _) Hget r Hr).
Qed.

Lemma merge_on_sign_in_witness :
  let env := onlineEnv (toDoc localAhead) in
  let w := startWorld initialState in
  (w_state (handleSignIn "alice@example.org" "secret" env w).2 = localAhead /\
   localStorage (handleSignIn "alice@example.org" "secret" env w).2
     = Some localAhead /\
   mkRequest PUT "jwt" (Some localAhead)
     ∈ requests (handleSignIn "alice@example.org" "secret" env w).2 /\
   w_state (checkExistingSession env w).2 = localAhead) /\
  (w_state (handleSignIn "alice@example.org" "secret" (onlineEnv staleDoc)
              (startWorld localAhead)).2
   = w_state (startWorld localAhead) /\
   mkRequest PUT (token alice) (Some (w_state (startWorld localAhead)))
     ∈ requests (handleSignIn "alice@example.org" "secret" (onlineEnv staleDoc)
                   (startWorld localAhead)).2).
Proof.
  cbv zeta. split.
  - assert (Hload : (loadFromCloud (onlineEnv (toDoc localAhead))
                       (startWorld initialState)).1
                    = Ok (Some (toDoc localAhead))) by reflexivity.
    destruct (merge_on_sign_in _ _ _ Hload) as (_ & Hfull & _ & Hin & Hres).
    assert (Hwin : cloudWins initialState (toDoc localAhead) = true)
      by (vm_compute; reflexivity).
    specialize (Hfull localAhead eq_refl Hwin).
    destruct (Hin "alice@example.org" "secret" alice) as (H1 & Hsaved);
      [discriminate | discriminate | reflexivity |].
    destruct (Hres alice eq_refl) as (H4 & _).
    cbv zeta in *.
    change (w_state (startWorld initialState)) with initialState in *.
    rewrite Hfull in *.
    destruct Hsaved as (H2 & H3); [right; vm_compute; discriminate |].
    split_and!; [exact H1 | exact H2 | | exact H4].
    apply (H3 alice eq_refl). discriminate.
  - assert (Hload : (loadFromCloud (onlineEnv staleDoc) (startWorld localAhead)).1
                    = Ok (Some staleDoc)) by reflexivity.
    destruct (merge_on_sign_in _ _ _ Hload) as (_ & _ & Hkept & Hin & _).
    assert (Hlose : cloudWins (w_state (startWorld localAhead)) staleDoc = false)
      by (vm_compute; reflexivity).
    specialize (Hkept Hlose).
    destruct (Hin "alice@example.org" "secret" alice) as (H1 & Hsaved);
      [discriminate | discriminate | reflexivity |].
    destruct Hsaved as (_ & H3); [left; exact Hlose |].
    specialize (H3 alice eq_refl ltac:(discriminate)).
    rewrite Hkept in H1, H3. split; [exact H1 | exact H3].
Defined.

(** C1, the resumed-session path: a device that is ahead of the cloud
    document keeps its state, and that state is not sent to the remote
    store; the only request made is the [GET]. *)
Lemma resumed_session_sends_no_put :
  let env := onlineEnv staleDoc in
  let w := startWorld localAhead in
  env_currentUser env AtSession = Ok (Some alice) /\
  (loadFromCloud env w).1 = Ok (Some staleDoc) /\
  cloudWins localAhead staleDoc = false /\
  w_state (checkExistingSession env w).2 = localAhead /\
  requests (checkExistingSession env w).2 = [mkRequest GET "jwt" None] /\
  ~ (exists r, r ∈ requests (checkExistingSession env w).2 /\ method r = PUT).
Proof.
  cbv zeta.
  assert (E : requests (checkExistingSession (onlineEnv staleDoc)
                          (startWorld localAhead)).2
              = [mkRequest GET "jwt" None]) by (vm_compute; reflexivity).
  split_and!; try (vm_compute; reflexivity).
  rewrite E. intros (r & Hr & Hm).
  apply list_elem_of_singleton in Hr. subst r. discriminate.
Qed.

(** The case that the statement above leaves out: a winning document
    whose level is 0 is adopted by [handleSignIn], the render throws,
    and the adopted state is neither uploaded nor saved locally. *)
Remark adopted_level_0_is_not_saved :
  let env := onlineEnv (toDoc (set_level 0 localAhead)) in
  let w' := (handleSignIn "alice@example.org" "secret" env
               (startWorld initialState)).2 in
  w_state w' = set_level 0 localAhead /\
  localStorage w' = Some initialState /\
  requests w' = [mkRequest GET "jwt" None].
Proof. vm_compute. split_and!; reflexivity. Qed.

(** C4, the sign-in paths: the level invariant is one of the operations
    above, not of the cloud merge.  Of two devices of one account, the
    one at level 2 adopts the document of the other, which has more
    water but less XP, and is at level 1 afterwards, on either path. *)
Lemma cloud_merge_can_lower_level :
  let env := onlineEnv (toDoc moreWater) in
  let w := startWorld goalMet in
  cloudWins goalMet (toDoc moreWater) = true /\
  level goalMet = 2 /\
  level (spread goalMet (toDoc moreWater)) = 1 /\
  level (w_state (handleSignIn "alice@example.org" "secret" env w).2) = 1 /\
  level (w_state (checkExistingSession env w).2) = 1.
Proof. vm_compute. split_and!; reflexivity. Qed.

(** * Further properties *)

(** ** The shape of the operations *)

Lemma handleGoalAchieved_unfold now s :
  handleGoalAchieved now s = addXP now 100 (goalMarked s).
Proof.
  unfold handleGoalAchieved, goalMarked. cbv zeta. f_equal.
  cbn [streak stats set_streak set_stats set_bestStreak bumpPerfect
       totalDays totalWater perfectDays bestStreak glassesCount].
  destruct (bestStreak (stats s) <? streak s + 1); reflexivity.
Qed.

Lemma addWater_unfold now amt s :
  addWater now amt s =
  checkAchievements now
    (let s5 := addXP now (amt / 25) (logged now amt s) in
     if (currentIntake s <? dailyGoal s5) && (dailyGoal s5 <=? currentIntake s5)
     then handleGoalAchieved now s5 else s5).
Proof. reflexivity. Qed.

Lemma checkNewDay_shape now s :
  exists st ci,
    checkNewDay now s = set_currentIntake ci (set_streak st s) /\
    (st = streak s \/ st = 0) /\ (ci = currentIntake s \/ ci = 0).
Proof.
  assert (Hid : s = set_currentIntake (currentIntake s) (set_streak (streak s) s))
    by (destruct s; reflexivity).
  unfold checkNewDay. destruct (lastDrinkDate s) as [d |].
  - repeat case_bool_decide; try destruct (_ <? _);
      first [ exists 0, 0; split; [reflexivity | tauto]
            | exists (streak s), 0; split; [destruct s; reflexivity | tauto]
            | exists (streak s), (currentIntake s); split; [exact Hid | tauto] ].
  - exists (streak s), (currentIntake s). split; [exact Hid | tauto].
Qed.

(** A relation kept by every assignment that [addWater] makes is kept
    by [addWater]. *)
Section AddWaterPreserved.
Variable R : State -> State -> Prop.
Variable okAmount : Z -> Prop.
Hypothesis R_refl : forall s, R s s.
Hypothesis R_trans : forall a b c, R a b -> R b c -> R a c.
Hypothesis R_unlock : forall now a s,
  a ∈ achievementsDef -> isUnlocked a s = false -> condition a s = true ->
  R s (unlock now a s).
Hypothesis R_level : forall s,
  level s < newLevelFor (totalXp s) ->
  R s (set_level (newLevelFor (totalXp s)) s).
Hypothesis R_gain : forall n s, R s (gainXP n s).
Hypothesis R_logged : forall now amt s, okAmount amt -> R s (logged now amt s).
Hypothesis R_goal : forall s, R s (goalMarked s).

Lemma addXP_kept now n s : R s (addXP now n s).
Proof. apply addXP_preserved; auto. Qed.

Lemma checkAchievements_kept now s : R s (checkAchievements now s).
Proof. apply checkAchievements_preserved; auto. Qed.

Lemma addWater_kept now amt s : okAmount amt -> R s (addWater now amt s).
Proof.
  intros Hok. rewrite addWater_unfold. cbv zeta.
  eapply R_trans; [| apply checkAchievements_kept].
  eapply R_trans; [apply R_logged; exact Hok |].
  destruct (_ && _).
  - rewrite handleGoalAchieved_unfold.
    eapply R_trans; [apply addXP_kept |].
    eapply R_trans; [apply R_goal | apply addXP_kept].
  - apply addXP_kept.
Qed.
End AddWaterPreserved.

(** ** Accounts *)

Lemma applyOp_cases s o :
  (exists now amt, o = OpAddWater now amt /\ applyOp s o = addWater now amt s) \/
  (exists now, o = OpCheckNewDay now /\ applyOp s o = checkNewDay now s) \/
  (currentIntake (applyOp s o) = currentIntake s /\
   xp (applyOp s o) = xp s /\ totalXp (applyOp s o) = totalXp s /\
   level (applyOp s o) = level s /\ streak (applyOp s o) = streak s /\
   lastDrinkDate (applyOp s o) = lastDrinkDate s /\
   history (applyOp s o) = history s /\
   achievements (applyOp s o) = achievements s /\
   stats (applyOp s o) = stats s /\
   (dailyGoal (applyOp s o) = dailyGoal s \/
    500 <= dailyGoal (applyOp s o) <= 5000)).
Proof.
  destruct o as [now amt | now | g a b | i a b |]; cbn [applyOp].
  - left. eauto.
  - right. left. eauto.
  - right. right. unfold saveSettings. destruct g as [g |].
    + destruct (Z.leb_spec 500 g), (Z.leb_spec g 5000); simpl;
        split_and!; try reflexivity; first [left; reflexivity | right; lia].
    + simpl. split_and!; try reflexivity. left. reflexivity.
  - right. right. simpl. split_and!; try reflexivity. left. reflexivity.
  - right. right. simpl. split_and!; try reflexivity. left. reflexivity.
Qed.

Lemma earned_same s s' : achievements s = achievements s' -> earned s = earned s'.
Proof. unfold earned. intros ->. reflexivity. Qed.

Lemma applyOp_accounted s o : accounted s -> accounted (applyOp s o).
Proof.
  unfold accounted. intros (HX & HW & HG).
  destruct (applyOp_cases s o) as [(now & amt & -> & E) | [(now & -> & E) | F]].
  - rewrite E.
    pose proof (addWater_fields now amt s) as (_ & _ & _ & _ & F5 & _ & F7 & FX & _).
    cbv zeta in *. generalize dependent (addWater now amt s). intros s' _ F5 F7 FX.
    rewrite F5, F7, waterXp_app, sumAmounts_app, length_app. simpl.
    destruct (goalCrossed amt s); split_and!; lia.
  - rewrite E.
    pose proof (checkNewDay_fields now s) as (_ & _ & F3 & _ & _ & F6 & F7 & _ & F9 & _).
    cbv zeta in *. rewrite F3, F6, F9, (earned_same _ _ F7). auto.
  - destruct F as (_ & _ & F3 & _ & _ & _ & F7 & F8 & F9 & _).
    rewrite F3, F7, F9, (earned_same _ _ F8). auto.
Qed.

Lemma applyOp_xp s o : xp s = totalXp s -> xp (applyOp s o) = totalXp (applyOp s o).
Proof.
  intros H.
  destruct (applyOp_cases s o) as [(now & amt & -> & E) | [(now & -> & E) | F]].
  - rewrite E. revert H.
    apply (addWater_kept (fun a b => xp a = totalXp a -> xp b = totalXp b)
                         (fun _ => True)); try (intros; simpl in *; lia); auto.
  - rewrite E.
    pose proof (checkNewDay_fields now s) as (_ & F2 & F3 & _).
    cbv zeta in *. lia.
  - destruct F as (_ & F2 & F3 & _). lia.
Qed.

(** X1: in every state that operations reach from the initial state,
    [xp] equals [totalXp], and [totalXp] is exactly the sum of
    [floor(amount / 25)] over the history, plus 100 for every goal
    day, plus the rewards of the unlocked achievements. *)
Theorem totalXp_accounting ops :
  let s := runOps ops initialState in
  xp s = totalXp s /\
  totalXp s = waterXp (history s) + 100 * perfectDays (stats s) + earned s.
Proof.
  cbv zeta. split.
  - apply (runOps_invariant (fun s => xp s = totalXp s) (fun _ => True)).
    + intros s o _. apply applyOp_xp.
    + apply Forall_forall. trivial.
    + reflexivity.
  - apply (runOps_invariant accounted (fun _ => True)).
    + intros s o _. apply applyOp_accounted.
    + apply Forall_forall. trivial.
    + vm_compute. auto.
Qed.

(** X2: in every state that operations reach from the initial state,
    [stats.totalWater] is the sum of the amounts in the history and
    [stats.glassesCount] is the number of its entries. *)
Theorem stats_match_history ops :
  let s := runOps ops initialState in
  totalWater (stats s) = sumAmounts (history s) /\
  glassesCount (stats s) = Z.of_nat (length (history s)).
Proof.
  cbv zeta.
  apply (runOps_invariant accounted (fun _ => True)).
  - intros s o _. apply applyOp_accounted.
  - apply Forall_forall. trivial.
  - vm_compute. auto.
Qed.

(** ** The history *)

Lemma applyOp_history s o : history s `prefix_of` history (applyOp s o).
Proof.
  destruct (applyOp_cases s o) as [(now & amt & -> & E) | [(now & -> & E) | F]].
  - rewrite E.
    pose proof (addWater_fields now amt s) as (_ & _ & _ & _ & F5 & _).
    cbv zeta in *. rewrite F5. apply prefix_app_r. reflexivity.
  - rewrite E.
    pose proof (checkNewDay_fields now s) as (_ & _ & _ & _ & _ & F6 & _).
    cbv zeta in *. rewrite F6. reflexivity.
  - destruct F as (_ & _ & _ & _ & _ & _ & F7 & _). rewrite F7. reflexivity.
Qed.

Lemma applyOp_achievements s o : achievements s ⊆ achievements (applyOp s o).
Proof.
  destruct (applyOp_cases s o) as [(now & amt & -> & E) | [(now & -> & E) | F]].
  - rewrite E.
    apply (addWater_kept (fun a b => achievements a ⊆ achievements b)
                         (fun _ => True)); try reflexivity; auto.
    + intros a b c ? ?. etrans; eassumption.
    + intros t a s0 _ Hu _. simpl. apply insert_subseteq, isUnlocked_false, Hu.
  - rewrite E.
    pose proof (checkNewDay_fields now s) as (_ & _ & _ & _ & _ & _ & F7 & _).
    cbv zeta in *. rewrite F7. reflexivity.
  - destruct F as (_ & _ & _ & _ & _ & _ & _ & F8 & _). rewrite F8. reflexivity.
Qed.

(** X3: no operation, from any state, removes or rewrites what is
    recorded: the history only grows at its end, and an unlocked
    achievement stays unlocked with the same [unlockedAt]. *)
Theorem records_are_kept ops s :
  history s `prefix_of` history (runOps ops s) /\
  achievements s ⊆ achievements (runOps ops s) /\
  (forall i u, achievements s !! i = Some u ->
               achievements (runOps ops s) !! i = Some u).
Proof.
  assert (H : history s `prefix_of` history (runOps ops s) /\
              achievements s ⊆ achievements (runOps ops s)).
  { revert s. induction ops as [| o ops IH]; intros s.
    - split; reflexivity.
    - rewrite runOps_cons. destruct (IH (applyOp s o)) as [H1 H2]. split.
      + etrans; [apply applyOp_history | exact H1].
      + etrans; [apply applyOp_achievements | exact H2]. }
  destruct H as [H1 H2]. split_and!; [exact H1 | exact H2 |].
  intros i u Hu. eapply lookup_weaken; eassumption.
Qed.

(** ** Achievements in reachable states *)

Lemma condition_streak_reset a ci s :
  a ∈ achievementsDef ->
  condition a (set_currentIntake ci (set_streak 0 s)) = true ->
  condition a s = true.
Proof.
  intros Ha. each_achievement Ha; simpl; trivial; discriminate.
Qed.

Lemma initialState_saturated : saturated initialState.
Proof.
  intros a Ha Hc. each_achievement Ha; vm_compute in Hc; discriminate.
Qed.

Lemma applyOp_saturated s o : saturated s -> saturated (applyOp s o).
Proof.
  intros Hs.
  destruct (applyOp_cases s o) as [(now & amt & -> & E) | [(now & -> & E) | F]].
  - rewrite E, addWater_unfold. apply checkAchievements_saturated.
  - rewrite E. destruct (checkNewDay_shape now s) as (st & ci & -> & [-> | ->] & _).
    + eapply saturated_frame; [.. | exact Hs]; reflexivity.
    + intros a Ha Hc. apply condition_streak_reset in Hc; [| exact Ha].
      exact (Hs a Ha Hc).
  - destruct F as (_ & _ & _ & F4 & F5 & _ & F7 & F8 & F9 & _).
    eapply saturated_frame; [.. | exact Hs]; symmetry; assumption.
Qed.

Lemma applyOp_knownIds s o : knownIds s -> knownIds (applyOp s o).
Proof.
  destruct (applyOp_cases s o) as [(now & amt & -> & E) | [(now & -> & E) | F]].
  - rewrite E.
    apply (addWater_kept (fun a b => knownIds a -> knownIds b) (fun _ => True));
      auto.
    intros t a s0 Ha _ _ Hk i Hi. simpl in Hi.
    destruct (decide (ach_id a = i)) as [<- | Hne]; [eauto |].
    rewrite lookup_insert_ne in Hi by exact Hne. apply Hk, Hi.
  - rewrite E.
    pose proof (checkNewDay_fields now s) as (_ & _ & _ & _ & _ & _ & F7 & _).
    cbv zeta in *. unfold knownIds. rewrite F7. trivial.
  - destruct F as (_ & _ & _ & _ & _ & _ & _ & F8 & _).
    unfold knownIds. rewrite F8. trivial.
Qed.

(** X5: in every state that operations reach from the initial state
    no achievement is pending: every catalogue entry whose condition
    holds is unlocked; and every unlocked id is an id of the
    catalogue. *)
Theorem achievements_never_pending ops :
  let s := runOps ops initialState in
  (forall a, a ∈ achievementsDef -> condition a s = true ->
             is_Some (achievements s !! ach_id a)) /\
  (forall i, is_Some (achievements s !! i) ->
             exists a, a ∈ achievementsDef /\ ach_id a = i).
Proof.
  cbv zeta. split.
  - intros a Ha Hc. apply isUnlocked_true.
    revert a Ha Hc.
    apply (runOps_invariant saturated (fun _ => True)).
    + intros s o _. apply applyOp_saturated.
    + apply Forall_forall. trivial.
    + apply initialState_saturated.
  - apply (runOps_invariant knownIds (fun _ => True)).
    + intros s o _. apply applyOp_knownIds.
    + apply Forall_forall. trivial.
    + intros i [u Hu]. simpl in Hu. rewrite lookup_empty in Hu. discriminate.
Qed.

Lemma ach_id_inj a b :
  a ∈ achievementsDef -> b ∈ achievementsDef -> ach_id a = ach_id b -> a = b.
Proof.
  intros Ha Hb. each_achievement Ha; each_achievement Hb;
    simpl; intros E; first [reflexivity | discriminate E].
Qed.

Lemma condition_grows a s s' :
  a ∈ achievementsDef -> isStreakAchievement a = false -> grows s s' ->
  condition a s = true -> condition a s' = true.
Proof.
  intros Ha Hns (G1 & G2 & G3 & G4 & [k G5]).
  each_achievement Ha; try (vm_compute in Hns; discriminate Hns); simpl;
    rewrite ?G5, ?existsb_app, ?Z.leb_le;
    try lia; intros ->; reflexivity.
Qed.

Lemma sound_grows s s' :
  grows s s' -> achievements s = achievements s' -> sound s -> sound s'.
Proof.
  intros Hg Ha Hs a Hin Hns Hu.
  apply (condition_grows a s s' Hin Hns Hg). apply Hs; [exact Hin | exact Hns |].
  unfold isUnlocked in *. rewrite Ha. exact Hu.
Qed.

Lemma grows_fields s s' :
  stats s = stats s' -> level s <= level s' -> history s = history s' ->
  grows s s'.
Proof.
  intros E1 E2 E3. unfold grows. rewrite E1, E3. split_and!; try lia. reflexivity.
Qed.

Lemma sound_unlock now a s :
  a ∈ achievementsDef -> condition a s = true -> sound s -> sound (unlock now a s).
Proof.
  intros Ha Hc Hs b Hb Hns Hu.
  rewrite (condition_frame b (unlock now a s) s Hb) by reflexivity.
  destruct (decide (ach_id a = ach_id b)) as [E | Hne].
  - rewrite <- (ach_id_inj a b Ha Hb E). exact Hc.
  - apply Hs; [exact Hb | exact Hns |].
    apply isUnlocked_true in Hu. apply isUnlocked_true. simpl in Hu.
    rewrite lookup_insert_ne in Hu by exact Hne. exact Hu.
Qed.

Lemma applyOp_sound s o : validOp o -> sound s -> sound (applyOp s o).
Proof.
  intros Hv.
  destruct (applyOp_cases s o) as [(now & amt & -> & E) | [(now & -> & E) | F]].
  - rewrite E. cbn [validOp] in Hv.
    apply (addWater_kept (fun a b => sound a -> sound b) (fun n => 0 <= n));
      auto; try lia.
    + intros t a s0 Ha _ Hc. apply sound_unlock; assumption.
    + intros s0 Hl. apply sound_grows; [| reflexivity].
      apply grows_fields; simpl; try reflexivity; lia.
    + intros n s0. apply sound_grows; [| reflexivity].
      apply grows_fields; simpl; try reflexivity; lia.
    + intros t n s0 Hn. apply sound_grows; [| reflexivity].
      unfold grows. simpl. split_and!; try lia. apply prefix_app_r. reflexivity.
    + intros s0. apply sound_grows; [| reflexivity].
      unfold grows. simpl. split_and!; try lia. reflexivity.
  - rewrite E. destruct (checkNewDay_shape now s) as (st & ci & -> & _).
    apply sound_grows; [| reflexivity].
    apply grows_fields; simpl; try reflexivity; lia.
  - destruct F as (_ & _ & _ & F4 & _ & _ & F7 & F8 & F9 & _).
    apply sound_grows; [| symmetry; exact F8].
    apply grows_fields; try (symmetry; assumption). lia.
Qed.

(** X6: in every state reached from the initial state by operations
    whose logged amounts are positive, an achievement whose condition
    does not read the streak is unlocked exactly when its condition
    holds. *)
Theorem unlocked_iff_condition ops a :
  Forall validOp ops ->
  a ∈ achievementsDef -> isStreakAchievement a = false ->
  let s := runOps ops initialState in
  is_Some (achievements s !! ach_id a) <-> condition a s = true.
Proof.
  intros Hv Ha Hns. cbv zeta. rewrite <- isUnlocked_true. split.
  - revert a Ha Hns.
    apply (runOps_invariant sound validOp);
      [intros s o; apply applyOp_sound | exact Hv |].
    intros a _ _ Hu. apply isUnlocked_true in Hu as [u Hu].
    simpl in Hu. rewrite lookup_empty in Hu. discriminate.
  - revert a Ha Hns.
    assert (H : saturated (runOps ops initialState)).
    { apply (runOps_invariant saturated (fun _ => True)).
      - intros s o _. apply applyOp_saturated.
      - apply Forall_forall. trivial.
      - apply initialState_saturated. }
    intros a Ha _. apply H, Ha.
Qed.

Lemma unlocked_iff_condition_witness :
  Forall validOp twoDays /\
  is_Some (achievements (runOps twoDays initialState) !! "first_drop").
Proof.
  assert (H1 : Forall validOp twoDays).
  { unfold twoDays. repeat constructor. }
  assert (H2 : firstDrop ∈ achievementsDef) by (apply elem_of_cons; left; reflexivity).
  split; [exact H1 |].
  apply (unlocked_iff_condition twoDays firstDrop H1 H2 eq_refl).
  reflexivity.
Defined.

(** ** Ranges *)

Lemma applyOp_inRange s o : validOp o -> inRange s -> inRange (applyOp s o).
Proof.
  unfold inRange. intros Hv H.
  destruct (applyOp_cases s o) as [(now & amt & -> & E) | [(now & -> & E) | F]].
  - rewrite E. cbn [validOp] in Hv.
    pose proof (addWater_fields now amt s) as (F1 & F2 & F3 & _ & _ & _ & F7 & _).
    cbv zeta in *. rewrite F1, F2, F3, F7. simpl.
    destruct (goalCrossed amt s); split_and!; lia.
  - rewrite E. destruct (checkNewDay_shape now s) as (st & ci & -> & Hst & Hci).
    simpl. split_and!; lia.
  - destruct F as (F1 & _ & _ & _ & F5 & _ & _ & _ & F9 & F10).
    rewrite F1, F5, F9. split_and!; lia.
Qed.

(** X7: in every state reached from the initial state by operations
    whose logged amounts are positive, [dailyGoal] lies in 500..5000,
    [level] in 1..10, and [currentIntake], [streak], [totalXp] and the
    five counters of [stats] are not negative. *)
Theorem fields_in_range ops :
  Forall validOp ops ->
  let s := runOps ops initialState in
  500 <= dailyGoal s <= 5000 /\ 1 <= level s <= 10 /\
  0 <= currentIntake s /\ 0 <= streak s /\ 0 <= totalXp s /\
  0 <= totalDays (stats s) /\ 0 <= totalWater (stats s) /\
  0 <= perfectDays (stats s) /\ 0 <= bestStreak (stats s) /\
  0 <= glassesCount (stats s).
Proof.
  intros Hv. cbv zeta.
  assert (H1 : inRange (runOps ops initialState)).
  { apply (runOps_invariant inRange validOp);
      [intros s o; apply applyOp_inRange | exact Hv |].
    unfold inRange. simpl. lia. }
  assert (H2 : levelInv (runOps ops initialState)).
  { apply (runOps_invariant levelInv validOp);
      [intros s o; apply applyOp_levelInv | exact Hv |].
    split; [simpl; lia | reflexivity]. }
  destruct H2 as [H2 H3]. unfold inRange in H1.
  pose proof (newLevelFor_range (totalXp (runOps ops initialState))).
  rewrite H3. split_and!; lia.
Qed.

Lemma fields_in_range_witness :
  Forall validOp twoDays /\
  500 <= dailyGoal (runOps twoDays initialState) <= 5000 /\
  1 <= level (runOps twoDays initialState) <= 10.
Proof.
  assert (H1 : Forall validOp twoDays).
  { unfold twoDays. repeat constructor. }
  destruct (fields_in_range twoDays H1) as (Ha & Hb & _).
  split_and!; [exact H1 | apply Ha | apply Ha | apply Hb | apply Hb].
Defined.

(** ** One goal a day *)

Lemma applyOp_keepsDay s o :
  keepsDay o -> dailyGoal s <= currentIntake s ->
  dailyGoal (applyOp s o) <= currentIntake (applyOp s o) /\
  streak (applyOp s o) = streak s /\
  perfectDays (stats (applyOp s o)) = perfectDays (stats s) /\
  totalDays (stats (applyOp s o)) = totalDays (stats s) /\
  bestStreak (stats (applyOp s o)) = bestStreak (stats s).
Proof.
  intros Hk Hr.
  destruct o as [now amt | now | g a b | i a b |]; cbn [applyOp keepsDay] in *;
    try contradiction.
  - pose proof (addWater_fields now amt s) as (F1 & F2 & F3 & _ & _ & _ & F7 & _).
    cbv zeta in *. rewrite F1, F2, F3, F7.
    assert (Hc : goalCrossed amt s = false).
    { unfold goalCrossed. destruct (Z.ltb_spec (currentIntake s) (dailyGoal s));
        [lia | reflexivity]. }
    rewrite Hc. simpl. split_and!; lia.
  - simpl. split_and!; try reflexivity; lia.
  - simpl. split_and!; try reflexivity; lia.
Qed.

(** X8: once the intake has reached the goal, logging more water
    (amounts not negative) and switching reminders leave [streak],
    [perfectDays], [totalDays] and [bestStreak] as they are: until a
    rollover or a change of the goal the goal handler does not run
    again. *)
Theorem goal_counts_once ops s :
  dailyGoal s <= currentIntake s ->
  Forall keepsDay ops ->
  let s' := runOps ops s in
  streak s' = streak s /\
  perfectDays (stats s') = perfectDays (stats s) /\
  totalDays (stats s') = totalDays (stats s) /\
  bestStreak (stats s') = bestStreak (stats s).
Proof.
  intros Hr Hk. cbv zeta. revert s Hr.
  induction Hk as [| o ops Ho _ IH]; intros s Hr.
  - split_and!; reflexivity.
  - rewrite runOps_cons.
    destruct (applyOp_keepsDay s o Ho Hr) as (H0 & H1 & H2 & H3 & H4).
    destruct (IH _ H0) as (I1 & I2 & I3 & I4).
    split_and!; congruence.
Qed.

Lemma goal_counts_once_witness :
  streak (runOps [OpAddWater noon 250; OpAddWater noon 250]
                 (addWater noon 2000 initialState)) = 1.
Proof.
  assert (Hr : dailyGoal (addWater noon 2000 initialState)
               <= currentIntake (addWater noon 2000 initialState))
    by (vm_compute; discriminate).
  assert (Hk : Forall keepsDay [OpAddWater noon 250; OpAddWater noon 250]).
  { repeat constructor; simpl; lia. }
  destruct (goal_counts_once _ _ Hr Hk) as (H1 & _).
  rewrite H1. reflexivity.
Defined.

(** ** The rollover and the intake of the day *)

Lemma checkNewDay_intake now s :
  currentIntake (checkNewDay now s) =
  match lastDrinkDate s with
  | Some ld => if bool_decide (ld <> toDateString now) then 0 else currentIntake s
  | None => currentIntake s
  end.
Proof.
  unfold checkNewDay. destruct (lastDrinkDate s) as [d |]; [| reflexivity].
  repeat case_bool_decide; try destruct (_ <? _); reflexivity.
Qed.

Lemma getIntakeForDate_history d s s' :
  history s = history s' -> getIntakeForDate d s = getIntakeForDate d s'.
Proof. unfold getIntakeForDate. intros ->. reflexivity. Qed.

Lemma getIntakeForDate_none d s :
  (forall h, h ∈ history s -> toDateString (timestamp h) <> d) ->
  getIntakeForDate d s = 0.
Proof.
  intros H. rewrite getIntakeForDate_sum.
  replace (filter (fun h => toDateString (timestamp h) = d) (history s))
    with (@nil HistoryEntry); [reflexivity |].
  symmetry. induction (history s) as [| h l IH]; [reflexivity |].
  rewrite filter_cons. destruct (decide _) as [E | _].
  - exfalso. eapply H; [left | exact E].
  - apply IH. intros h' Hh'. apply H. right. exact Hh'.
Qed.

Lemma applyOp_dayInv rolled o s :
  dayInv rolled s -> disciplined rolled [o] ->
  dayInv (lastRolled rolled [o]) (applyOp s o).
Proof.
  intros [Hh Hr] Hd.
  destruct o as [now amt | now | g a b | i a b |];
    cbn [applyOp disciplined lastRolled] in *.
  - destruct Hd as [-> _]. destruct Hr as [Hc Hld].
    pose proof (addWater_fields now amt s) as (F1 & _ & _ & F4 & F5 & _).
    cbv zeta in *. unfold dayInv.
    rewrite getIntakeForDate_sum, F1, F4, F5, Hc, getIntakeForDate_sum.
    split_and!.
    + intros h Hx. apply elem_of_app in Hx as [Hx | Hx].
      * destruct (lastDrinkDate s) as [ld |] eqn:E.
        -- specialize (Hh h Hx). specialize (Hld ld eq_refl). lia.
        -- rewrite Hh in Hx. apply elem_of_nil in Hx. destruct Hx.
      * apply list_elem_of_singleton in Hx. subst h. simpl. lia.
    + rewrite filter_app, sumAmounts_app, filter_cons, filter_nil. simpl.
      rewrite decide_True by reflexivity. simpl. lia.
    + intros ld [= <-]. lia.
  - destruct Hd as [Hmono _].
    pose proof (checkNewDay_fields now s) as (_ & _ & _ & _ & F5 & F6 & _).
    cbv zeta in *. unfold dayInv.
    rewrite (getIntakeForDate_history _ _ _ F6), F5, F6, checkNewDay_intake.
    split; [exact Hh |].
    destruct (lastDrinkDate s) as [ld |] eqn:E.
    + destruct rolled as [d |]; [| destruct Hr; discriminate].
      destruct Hr as [Hc Hld]. specialize (Hld ld eq_refl).
      specialize (Hmono d eq_refl).
      case_bool_decide as Hne.
      * split; [| intros ? [= <-]; lia].
        symmetry. apply getIntakeForDate_none. intros h Hx.
        specialize (Hh h Hx). lia.
      * subst ld.
        assert (d = toDateString now) by lia. subst d.
        split; [exact Hc | intros ? [= <-]; lia].
    + split; [| discriminate].
      rewrite (getIntakeForDate_none _ s) by (rewrite Hh; intros h Hx;
        apply elem_of_nil in Hx; destruct Hx).
      destruct rolled as [d |].
      * destruct Hr as [Hc _]. rewrite Hc. apply getIntakeForDate_none.
        rewrite Hh. intros h Hx. apply elem_of_nil in Hx. destruct Hx.
      * apply Hr.
  - unfold saveSettings, dayInv in *.
    destruct g as [g |]; [destruct (_ && _) |]; exact (conj Hh Hr).
  - exact (conj Hh Hr).
  - exact (conj Hh Hr).
Qed.

Lemma disciplined_cons rolled o ops :
  disciplined rolled (o :: ops) <->
  disciplined rolled [o] /\ disciplined (lastRolled rolled [o]) ops.
Proof. destruct o; simpl; tauto. Qed.

Lemma lastRolled_cons rolled o ops :
  lastRolled rolled (o :: ops) = lastRolled (lastRolled rolled [o]) ops.
Proof. destruct o; reflexivity. Qed.

Lemma runOps_dayInv ops : forall rolled s,
  dayInv rolled s -> disciplined rolled ops ->
  dayInv (lastRolled rolled ops) (runOps ops s).
Proof.
  induction ops as [| o ops IH]; intros rolled s Hi Hd; [exact Hi |].
  apply disciplined_cons in Hd as [Hd1 Hd2].
  rewrite lastRolled_cons, runOps_cons.
  apply IH; [| exact Hd2]. apply applyOp_dayInv; assumption.
Qed.

(** X9: in a run from the initial state in which the rollover has
    been made on the day of every [addWater] and the days never go
    back, [currentIntake] is the intake of the day of the last
    rollover, summed from the history (and 0 before any rollover). *)
Theorem currentIntake_is_todays_intake ops :
  disciplined None ops ->
  let s := runOps ops initialState in
  match lastRolled None ops with
  | Some today => currentIntake s = getIntakeForDate today s
  | None => currentIntake s = 0
  end.
Proof.
  intros Hd. cbv zeta.
  assert (H0 : dayInv None initialState) by (repeat split).
  destruct (runOps_dayInv ops None initialState H0 Hd) as [_ H].
  destruct (lastRolled None ops); apply H.
Qed.

Lemma currentIntake_is_todays_intake_witness :
  disciplined None morning /\
  currentIntake (runOps morning initialState)
  = getIntakeForDate 1 (runOps morning initialState).
Proof.
  assert (Hd : disciplined None morning).
  { unfold morning. simpl. split_and!; try reflexivity; trivial. discriminate. }
  split; [exact Hd |].
  exact (currentIntake_is_todays_intake morning Hd).
Defined.

(** X10: a second rollover on the same day changes nothing more; and
    the rollover changes nothing at all when no drink was ever logged
    or the last drink was today. *)
Theorem checkNewDay_idempotent now now' s :
  toDateString now' = toDateString now ->
  checkNewDay now' (checkNewDay now s) = checkNewDay now s /\
  (lastDrinkDate s = None \/ lastDrinkDate s = Some (toDateString now) ->
   checkNewDay now s = s).
Proof.
  intros Hday. split.
  - unfold checkNewDay. rewrite Hday.
    destruct (lastDrinkDate s) as [d |] eqn:E; [| rewrite E; reflexivity].
    case_bool_decide as H1.
    + case_bool_decide as H2.
      * unfold getIntakeForDate.
        destruct (_ <? dailyGoal s) eqn:H3; cbn; rewrite E;
          rewrite !(bool_decide_eq_true_2 _ H1), !(bool_decide_eq_true_2 _ H2);
          try (cbn; rewrite H3); reflexivity.
      * cbn. rewrite E.
        rewrite (bool_decide_eq_true_2 _ H1), (bool_decide_eq_false_2 _ H2).
        reflexivity.
    + rewrite E, bool_decide_eq_false_2 by (intros Hn; exact (Hn H1)).
      reflexivity.
  - unfold checkNewDay. intros [-> | ->]; [reflexivity |].
    rewrite bool_decide_eq_false_2 by tauto. reflexivity.
Qed.

Lemma checkNewDay_idempotent_witness :
  checkNewDay (msPerDay + noon + msPerHour)
              (checkNewDay (msPerDay + noon) missedYesterday)
  = checkNewDay (msPerDay + noon) missedYesterday.
Proof.
  apply (checkNewDay_idempotent (msPerDay + noon)). reflexivity.
Defined.

(** ** Logging water, seen from outside *)

(** X11: whatever achievements and levels it triggers, [addWater] adds
    exactly [amount] to [currentIntake] and to [stats.totalWater], one
    to [stats.glassesCount], sets [lastDrinkDate] to today, appends
    exactly one entry to the history, and leaves [dailyGoal] and the
    settings alone. *)
Theorem addWater_logs_once now amt s :
  let s' := addWater now amt s in
  currentIntake s' = currentIntake s + amt /\
  totalWater (stats s') = totalWater (stats s) + amt /\
  glassesCount (stats s') = glassesCount (stats s) + 1 /\
  lastDrinkDate s' = Some (toDateString now) /\
  history s' = history s ++ [mkEntry amt now (toDateString now)] /\
  dailyGoal s' = dailyGoal s /\
  settings s' = settings s.
Proof.
  pose proof (addWater_fields now amt s) as (F1 & F2 & _ & F4 & F5 & F6 & F7 & _).
  cbv zeta in *. generalize dependent (addWater now amt s).
  intros s' F1 F2 F4 F5 F6 F7. rewrite F7. simpl. split_and!; auto.
Qed.

(** ** The XP bar *)

Lemma getXPForCurrentLevel_table s :
  1 <= level s <= 9 ->
  exists cur next,
    cur ∈ levels /\ next ∈ levels /\
    lv_level cur = level s /\ lv_level next = level s + 1 /\
    getXPForCurrentLevel s
    = Ok (mkXPBar (totalXp s - xpRequired cur) (xpRequired next - xpRequired cur)).
Proof.
  intros H.
  destruct (findLevel_inside (level s)) as (cur & E1 & H1 & L1); [lia |].
  destruct (findLevel_inside (level s + 1)) as (next & E2 & H2 & L2); [lia |].
  exists cur, next. unfold getXPForCurrentLevel. rewrite E1, E2.
  split_and!; auto.
Qed.

Lemma level_thresholds l :
  l ∈ levels ->
  xpRequired l =
  match lv_level l with
  | 1 => 0 | 2 => 100 | 3 => 250 | 4 => 500 | 5 => 800
  | 6 => 1200 | 7 => 1700 | 8 => 2300 | 9 => 3000 | _ => 4000
  end.
Proof.
  intros H. unfold levels in H.
  repeat (apply elem_of_cons in H as [-> | H]); try reflexivity.
  apply elem_of_nil in H. destruct H.
Qed.

(** X12: in every state reached from the initial state by operations
    whose logged amounts are positive, [getXPForCurrentLevel] returns
    (it does not throw); below level 10 the bar is never negative and
    never full, [0 <= current < required]; at level 10 it is the fixed
    pair 0 of 1. *)
Theorem xp_bar_in_bounds ops :
  Forall validOp ops ->
  let s := runOps ops initialState in
  exists bar,
    getXPForCurrentLevel s = Ok bar /\
    (level s < 10 -> 0 <= current bar < required bar) /\
    (level s = 10 -> bar = mkXPBar 0 1).
Proof.
  intros Hv. cbv zeta.
  assert (H : levelInv (runOps ops initialState)).
  { apply (runOps_invariant levelInv validOp);
      [intros s o; apply applyOp_levelInv | exact Hv |].
    split; [simpl; lia | reflexivity]. }
  generalize dependent (runOps ops initialState). intros s [H0 Hl].
  pose proof (newLevelFor_range (totalXp s)) as Hr. rewrite <- Hl in Hr.
  destruct (decide (level s = 10)) as [E | Hne].
  - exists (mkXPBar 0 1). unfold getXPForCurrentLevel.
    rewrite (findLevel_outside (level s + 1)) by lia.
    split_and!; [reflexivity | lia | reflexivity].
  - destruct (getXPForCurrentLevel_table s) as (cur & next & H1 & H2 & L1 & L2 & E);
      [lia |].
    eexists. split; [exact E |]. split; [| lia]. intros _. simpl.
    rewrite (level_thresholds cur H1), (level_thresholds next H2), L1, L2.
    clear E H1 H2 L1 L2 cur next. revert Hl. rewrite newLevelFor_unfold.
    repeat match goal with
           | |- context [?a <=? totalXp s] => destruct (Z.leb_spec a (totalXp s))
           end; intros Hl; rewrite Hl in *; simpl; lia.
Qed.

Lemma xp_bar_in_bounds_witness :
  Forall validOp twoDays /\
  exists bar, getXPForCurrentLevel (runOps twoDays initialState) = Ok bar.
Proof.
  assert (H1 : Forall validOp twoDays).
  { unfold twoDays. repeat constructor. }
  split; [exact H1 |].
  destruct (xp_bar_in_bounds twoDays H1) as (bar & E & _).
  exists bar. exact E.
Defined.

(** X13: for any state, [getXPForCurrentLevel] throws exactly when
    [level] is 0; for a level below 0 or from 10 on it returns the
    fixed pair 0 of 1; for a level from 1 to 9 it returns a bar whose
    [required] is positive, so that the percentage never divides by
    zero. *)
Theorem xp_bar_edges s :
  (level s = 0 <-> exists e, getXPForCurrentLevel s = Throw e) /\
  (level s < 0 \/ 10 <= level s -> getXPForCurrentLevel s = Ok (mkXPBar 0 1)) /\
  (1 <= level s <= 9 ->
   exists bar, getXPForCurrentLevel s = Ok bar /\ 0 < required bar).
Proof.
  assert (H19 : 1 <= level s <= 9 ->
            exists bar, getXPForCurrentLevel s = Ok bar /\ 0 < required bar).
  { intros H.
    destruct (getXPForCurrentLevel_table s H) as (cur & next & H1 & H2 & L1 & L2 & E).
    eexists. split; [exact E |]. simpl.
    rewrite (level_thresholds cur H1), (level_thresholds next H2), L1, L2.
    assert (Hc : level s = 1 \/ level s = 2 \/ level s = 3 \/ level s = 4 \/
                 level s = 5 \/ level s = 6 \/ level s = 7 \/ level s = 8 \/
                 level s = 9) by lia.
    repeat destruct Hc as [-> | Hc]; try rewrite Hc; simpl; lia. }
  assert (Hout : level s < 0 \/ 10 <= level s ->
                 getXPForCurrentLevel s = Ok (mkXPBar 0 1)).
  { intros H. unfold getXPForCurrentLevel.
    rewrite (findLevel_outside (level s + 1)) by lia. reflexivity. }
  split_and!; [| exact Hout | exact H19].
  split.
  - intros E. unfold getXPForCurrentLevel. rewrite E.
    exists "TypeError". reflexivity.
  - intros [e He].
    destruct (decide (level s = 0)) as [E | Hne]; [exact E |].
    destruct (decide (1 <= level s <= 9)) as [Hin | Hnin].
    + destruct (H19 Hin) as (bar & Hb & _). congruence.
    + rewrite Hout in He by lia. discriminate.
Qed.

Lemma xp_bar_edges_witness :
  getXPForCurrentLevel (set_level 0 initialState) = Throw "TypeError" /\
  getXPForCurrentLevel (set_level 10 initialState) = Ok (mkXPBar 0 1).
Proof.
  destruct (xp_bar_edges (set_level 10 initialState)) as (_ & H2 & _).
  split; [reflexivity |]. apply H2. right. simpl. lia.
Defined.

(** ** The weekly chart *)

Lemma week_partition (l : list HistoryEntry) t :
  sumAmounts (filter (fun h => date h = t - 6) l)
  + sumAmounts (filter (fun h => date h = t - 5) l)
  + sumAmounts (filter (fun h => date h = t - 4) l)
  + sumAmounts (filter (fun h => date h = t - 3) l)
  + sumAmounts (filter (fun h => date h = t - 2) l)
  + sumAmounts (filter (fun h => date h = t - 1) l)
  + sumAmounts (filter (fun h => date h = t - 0) l)
  = sumAmounts (filter (fun h => t - 6 <= date h <= t) l).
Proof.
  induction l as [| h l IH]; [reflexivity |].
  rewrite !filter_cons.
  repeat (destruct (decide _)); simpl; lia.
Qed.

(** X14: the week total of the chart is the sum of the amounts of all
    history entries dated on today or one of the six days before it,
    each counted once. *)
Theorem weekTotal_is_sum_of_week now s :
  weekTotal now s
  = sumAmounts
      (filter (fun h => toDateString now - 6 <= date h <= toDateString now)
              (history s)).
Proof.
  rewrite <- week_partition. unfold weekTotal, weeklyData, sumIntake.
  cbn [fmap list_fmap foldl intake]. rewrite !chartIntake_sum. lia.
Qed.

(** ** Reminders *)

Lemma isWithinActiveHours_clock Number now s :
  isWithinActiveHours Number now s =
  match clockMinutes Number (startTime (settings s)),
        clockMinutes Number (endTime (settings s)) with
  | Some a, Some b =>
      (a <=? getHours now * 60 + getMinutes now)
      && (getHours now * 60 + getMinutes now <=? b)
  | _, _ => false
  end.
Proof. reflexivity. Qed.

(** X15: reminders are sent only between the start and the end of the
    window, both included; a window whose start is later than its end
    (one that spans midnight) is never active, and neither is one with
    a field that does not convert to a number. *)
Theorem active_hours_window Number now s :
  let start := clockMinutes Number (startTime (settings s)) in
  let stop := clockMinutes Number (endTime (settings s)) in
  (isWithinActiveHours Number now s = true <->
   exists a b, start = Some a /\ stop = Some b /\
               a <= getHours now * 60 + getMinutes now <= b) /\
  (forall a b, start = Some a -> stop = Some b -> b < a ->
               isWithinActiveHours Number now s = false) /\
  (start = None \/ stop = None -> isWithinActiveHours Number now s = false).
Proof.
  cbv zeta. rewrite isWithinActiveHours_clock.
  destruct (clockMinutes Number (startTime (settings s))) as [a |];
    destruct (clockMinutes Number (endTime (settings s))) as [b |].
  - split_and!.
    + rewrite andb_true_iff, !Z.leb_le. split.
      * intros H. exists a, b. auto.
      * intros (a' & b' & [= <-] & [= <-] & H). exact H.
    + intros a' b' [= <-] [= <-] Hlt.
      apply andb_false_iff. rewrite !Z.leb_gt. lia.
    + intros [H | H]; discriminate.
  - split_and!; [split; [discriminate | intros (? & ? & _ & ? & _); discriminate]
                | reflexivity | reflexivity].
  - split_and!; [split; [discriminate | intros (? & ? & ? & _); discriminate]
                | reflexivity | reflexivity].
  - split_and!; [split; [discriminate | intros (? & ? & ? & _); discriminate]
                | reflexivity | reflexivity].
Qed.

Lemma active_hours_window_witness :
  clockMinutes (digits 0) "22:00" = Some 1320 /\
  clockMinutes (digits 0) "06:00" = Some 360 /\
  isWithinActiveHours (digits 0) (23 * msPerHour) overnight = false.
Proof.
  destruct (active_hours_window (digits 0) (23 * msPerHour) overnight)
    as (_ & H & _).
  split_and!; [reflexivity | reflexivity |].
  apply (H 1320 360); [reflexivity | reflexivity | lia].
Defined.

(** ** The sign-in paths in every environment *)

(** X16: [handleSignIn] and [checkExistingSession] never throw,
    whatever Cognito and the network do.  [handleSignIn] changes
    nothing (state, sign-in flags, local storage, requests) when a
    field is empty or the sign-in is rejected; [checkExistingSession]
    changes nothing when there is no session or asking for it fails. *)
Theorem sign_in_paths_never_throw env w em pw :
  (handleSignIn em pw env w).1 = Ok tt /\
  (checkExistingSession env w).1 = Ok tt /\
  (em = EmptyString \/ pw = EmptyString \/
   (exists e, env_signIn env em pw = Throw e) ->
   handleSignIn em pw env w = (Ok tt, w)) /\
  (env_currentUser env AtSession = Ok None \/
   (exists e, env_currentUser env AtSession = Throw e) ->
   checkExistingSession env w = (Ok tt, w)).
Proof.
  destruct (handleSignIn_cases env w em pw)
    as [[E1 _] | (u & v & rs1 & Hem & Hpw & Hin & _ & _ &
                  [[_ E1] | (_ & rs2 & _ & _ & E1)])];
  destruct (checkExistingSession_cases env w)
    as [[E2 _] | (u' & v' & rs1' & Hu & _ & _ & E2)];
  rewrite E1, E2; split_and!; try reflexivity;
    try (intros [H | [H | [e H]]]; congruence);
    try (intros [H | [e H]]; congruence).
Qed.

Lemma sign_in_paths_never_throw_witness :
  handleSignIn "alice@example.org" "wrong" signedOutEnv (startWorld localAhead)
  = (Ok tt, startWorld localAhead) /\
  checkExistingSession signedOutEnv (startWorld localAhead)
  = (Ok tt, startWorld localAhead).
Proof.
  destruct (sign_in_paths_never_throw signedOutEnv (startWorld localAhead)
              "alice@example.org" "wrong") as (_ & _ & H1 & H2).
  split.
  - apply H1. right. right. eexists. reflexivity.
  - apply H2. left. reflexivity.
Defined.

(** X17: a cloud operation leaves the page's state, its sign-in flags
    and local storage as they are; it sends exactly one request when
    Cognito gives a user whose token is not empty, carrying that token
    (and, for [saveToCloud], the given state as body), and none
    otherwise: not without a user, not when asking for the user fails,
    and not with an empty token. *)
Theorem cloud_operations_frame env w s :
  (exists rs, (loadFromCloud env w).2 = addRequests rs w /\
              sentWith env AtLoad GET None rs) /\
  (exists rs, (saveToCloud s env w).2 = addRequests rs w /\
              sentWith env AtSave PUT (Some s) rs) /\
  (exists rs, (deleteFromCloud env w).2 = addRequests rs w /\
              sentWith env AtDelete DELETE None rs).
Proof.
  unfold sentWith. split_and!; run_js.
  - destruct (env_currentUser env AtLoad) as [[u |] | e]; simpl.
    + case_bool_decide.
      { exists []. rewrite app_nil_r. destruct w. split; reflexivity. }
      exists [mkRequest GET (token u) None]. split; [| reflexivity].
      destruct (env_fetch env (mkRequest GET (token u) None)) as [res | e];
        simpl; [| reflexivity].
      destruct (status res =? 404); simpl; [reflexivity |].
      destruct (ok res); simpl; [destruct (json res) |]; reflexivity.
    + exists []. rewrite app_nil_r. destruct w. split; reflexivity.
    + exists []. rewrite app_nil_r. destruct w. split; reflexivity.
  - destruct (env_currentUser env AtSave) as [[u |] | e]; simpl.
    + case_bool_decide.
      { exists []. rewrite app_nil_r. destruct w. split; reflexivity. }
      exists [mkRequest PUT (token u) (Some s)]. split; [| reflexivity].
      destruct (env_fetch env (mkRequest PUT (token u) (Some s))); reflexivity.
    + exists []. rewrite app_nil_r. destruct w. split; reflexivity.
    + exists []. rewrite app_nil_r. destruct w. split; reflexivity.
  - destruct (env_currentUser env AtDelete) as [[u |] | e]; simpl.
    + case_bool_decide.
      { exists []. rewrite app_nil_r. destruct w. split; reflexivity. }
      exists [mkRequest DELETE (token u) None]. split; [| reflexivity].
      destruct (env_fetch env (mkRequest DELETE (token u) None)); reflexivity.
    + exists []. rewrite app_nil_r. destruct w. split; reflexivity.
    + exists []. rewrite app_nil_r. destruct w. split; reflexivity.
Qed.

Lemma spread_gain s d :
  0 <= totalXp s -> 0 <= totalWater (stats s) -> cloudWins s d = true ->
  totalXp s < totalXp (spread s d) \/
  totalWater (stats s) < totalWater (stats (spread s d)).
Proof.
  intros Hx Hw Hc. apply cloudWins_spec in Hc. simpl.
  destruct (d_totalXp d) as [x |], (d_stats d) as [st |]; simpl in *; lia.
Qed.

Lemma merged_gain s v :
  0 <= totalXp s -> 0 <= totalWater (stats s) ->
  merged s v = s \/
  totalXp s < totalXp (merged s v) \/
  totalWater (stats s) < totalWater (stats (merged s v)).
Proof.
  intros Hx Hw.
  destruct (merged_cases s v) as [E | (d & _ & Hc & E)]; [left; exact E |].
  right. rewrite E. apply spread_gain; assumption.
Qed.

(** X18: on a device whose [totalXp] and [totalWater] are not
    negative, neither sign-in path replaces the local state unless the
    state it adopts has more [totalXp] or more [totalWater]; this
    holds for every answer of Cognito and the network, also for
    documents with missing keys. *)
Theorem local_state_replaced_only_by_progress env w em pw :
  0 <= totalXp (w_state w) -> 0 <= totalWater (stats (w_state w)) ->
  let gains s' :=
    s' = w_state w \/
    totalXp (w_state w) < totalXp s' \/
    totalWater (stats (w_state w)) < totalWater (stats s') in
  gains (w_state (handleSignIn em pw env w).2) /\
  gains (w_state (checkExistingSession env w).2).
Proof.
  intros Hx Hw. cbv zeta. split.
  - destruct (handleSignIn_cases env w em pw)
      as [[E _] | (u & v & rs1 & _ & _ & _ & _ & _ &
                   [[_ E] | (_ & rs2 & _ & _ & E)])];
      rewrite E; cbn [snd w_state];
      [left; reflexivity | apply merged_gain; assumption ..].
  - destruct (checkExistingSession_cases env w)
      as [[E _] | (u & v & rs1 & _ & _ & _ & E)];
      rewrite E; cbn [snd w_state];
      [left; reflexivity | apply merged_gain; assumption].
Qed.

Lemma local_state_replaced_only_by_progress_witness :
  totalXp initialState
  < totalXp (w_state (handleSignIn "alice@example.org" "secret"
                        (onlineEnv (toDoc localAhead))
                        (startWorld initialState)).2).
Proof.
  destruct (local_state_replaced_only_by_progress
              (onlineEnv (toDoc localAhead)) (startWorld initialState)
              "alice@example.org" "secret") as [[H | [H | H]] _];
    [ simpl; lia | simpl; lia | | exact H | ].
  - exfalso. vm_compute in H. discriminate.
  - vm_compute. reflexivity.
Defined.

Lemma cloudWins_own s : cloudWins s (toDoc s) = false.
Proof. unfold cloudWins. simpl. rewrite !Z.ltb_irrefl. reflexivity. Qed.

(** X19: a device that fetches the document of its own state (what it
    last uploaded) keeps its state on both sign-in paths, and
    [checkExistingSession] then leaves local storage untouched
    too. *)
Theorem own_document_changes_nothing env w em pw :
  (loadFromCloud env w).1 = Ok (Some (toDoc (w_state w))) ->
  w_state (handleSignIn em pw env w).2 = w_state w /\
  w_state (checkExistingSession env w).2 = w_state w /\
  localStorage (checkExistingSession env w).2 = localStorage w.
Proof.
  intros Hload.
  assert (Hm : forall v, (forall w2, (loadFromCloud env w2).1 = Ok v) ->
                         v = Some (toDoc (w_state w))).
  { intros v Hv. rewrite (Hv w) in Hload. congruence. }
  split_and!.
  - destruct (handleSignIn_cases env w em pw)
      as [[E _] | (u & v & rs1 & _ & _ & _ & Hv & _ &
                   [[_ E] | (_ & rs2 & _ & _ & E)])];
      rewrite E; [reflexivity | |];
      rewrite (Hm v Hv); simpl; rewrite cloudWins_own; reflexivity.
  - destruct (checkExistingSession_cases env w)
      as [[E _] | (u & v & rs1 & _ & Hv & _ & E)]; rewrite E; [reflexivity |].
    rewrite (Hm v Hv). simpl. rewrite cloudWins_own. reflexivity.
  - destruct (checkExistingSession_cases env w)
      as [[E _] | (u & v & rs1 & _ & Hv & _ & E)]; rewrite E; [reflexivity |].
    rewrite (Hm v Hv). simpl. rewrite cloudWins_own. reflexivity.
Qed.

Lemma own_document_changes_nothing_witness :
  w_state (checkExistingSession (onlineEnv (toDoc localAhead))
                                (startWorld localAhead)).2
  = w_state (startWorld localAhead).
Proof.
  assert (Hload : (loadFromCloud (onlineEnv (toDoc localAhead))
                     (startWorld localAhead)).1
                  = Ok (Some (toDoc (w_state (startWorld localAhead)))))
    by (vm_compute; reflexivity).
  destruct (own_document_changes_nothing (onlineEnv (toDoc localAhead))
              (startWorld localAhead) "alice@example.org" "secret" Hload)
    as (_ & H & _).
  exact H.
Defined.

(** ** XP is never taken back *)

Lemma checkAchievements_totalXp now s : totalXp s <= totalXp (checkAchievements now s).
Proof.
  apply (checkAchievements_preserved (fun a b => totalXp a <= totalXp b));
    intros; simpl; try lia.
  pose proof (ach_xp_nonneg a ltac:(assumption)). lia.
Qed.

Lemma addXP_totalXp now n s : 0 <= n -> totalXp s <= totalXp (addXP now n s).
Proof.
  intros Hn.
  apply (addXP_preserved (fun a b => totalXp a <= totalXp b));
    intros; simpl; try lia.
  pose proof (ach_xp_nonneg a ltac:(assumption)). lia.
Qed.

Lemma addWater_totalXp now amt s :
  0 < amt -> totalXp s <= totalXp (addWater now amt s).
Proof.
  intros Ha. rewrite addWater_unfold. cbv zeta.
  assert (H5 : totalXp s <= totalXp (addXP now (amt / 25) (logged now amt s))).
  { etrans; [| apply addXP_totalXp; apply Z.div_pos; lia]. simpl. lia. }
  etrans; [| apply checkAchievements_totalXp].
  destruct (_ && _); [| exact H5].
  rewrite handleGoalAchieved_unfold.
  etrans; [exact H5 |]. etrans; [| apply addXP_totalXp; lia]. simpl. lia.
Qed.

Lemma applyOp_totalXp s o : validOp o -> totalXp s <= totalXp (applyOp s o).
Proof.
  intros Hv.
  destruct (applyOp_cases s o) as [(now & amt & -> & E) | [(now & -> & E) | F]].
  - rewrite E. apply addWater_totalXp, Hv.
  - rewrite E. pose proof (checkNewDay_fields now s) as (_ & _ & F3 & _).
    cbv zeta in *. lia.
  - destruct F as (_ & _ & F3 & _). lia.
Qed.

(** X20: operations whose logged amounts are positive never lower
    [totalXp], from any state. *)
Theorem totalXp_never_decreases ops s :
  Forall validOp ops -> totalXp s <= totalXp (runOps ops s).
Proof.
  intros Hv. revert s. induction Hv as [| o ops Ho _ IH]; intros s.
  - reflexivity.
  - rewrite runOps_cons. etrans; [apply applyOp_totalXp, Ho | apply IH].
Qed.

Lemma totalXp_never_decreases_witness :
  totalXp localAhead <= totalXp (runOps nextDay localAhead).
Proof.
  apply totalXp_never_decreases. unfold nextDay. repeat constructor.
Defined.
